(** * LED-matrix controller ([app.py]): encoder, downsampler and rasterizers

    A shallow embedding of the four transforms of [app.py]
    ([send_frame], [downsample_16_to_8], [image_to_8x8], [text_to_frames])
    and the properties its specification states about them.

    Conventions.
    - Python [int]s and NumPy integer cells are [Z]; a 2-D array is the
      list of its rows.  A matrix handed to [np.array(_, dtype=int)] may
      be a list of rows of Python integers: the conversion checks that
      every one of them fits a NumPy integer.
    - A call that may raise returns [result A]: [inl e] is the raised
      exception, [inr v] the returned value.
    - [for x in range(a, b)] is [for_each (py_range a b)].
    - Pillow is an external library.  What the program relies on is the
      size of the images it gets back, which is fixed by Pillow's
      interface and written out here; the pixel contents computed by the
      font renderer and by the bilinear filter are parameters.  Pillow's
      calls are modelled where they return: the errors it raises on
      degenerate sizes are not part of the model. *)

From Stdlib Require Import ZArith String Bool Lia QArith List.
From Stdlib.Strings Require Import Byte.
From Stdlib Require Import DecimalString.
From Stdlib Require Import Floats.SpecFloat.
Import ListNotations.

#[local] Open Scope Z_scope.

(** ** Exceptions and loops *)

Inductive exn : Type :=
| ValueError (msg : string)
| IndexError (msg : string)
| OverflowError (msg : string).

Definition result (A : Type) : Type := (exn + A)%type.

Definition ret {A} (a : A) : result A := inr a.
Definition raise {A} (e : exn) : result A := inl e.

Definition bind {A B} (m : result A) (k : A -> result B) : result B :=
  match m with
  | inl e => inl e
  | inr a => k a
  end.

Notation "x <- m ;; k" := (bind m (fun x => k))
  (at level 61, m at next level, right associativity).

(** [range(start, stop)], empty when [stop <= start]. *)
Definition py_range (start stop : Z) : list Z :=
  map (fun i => start + Z.of_nat i) (seq 0 (Z.to_nat (stop - start))).

(** [for x in xs: s = body(x, s)], stopping at the first exception. *)
Fixpoint for_each {A S} (xs : list A) (body : A -> S -> result S) (s : S)
  : result S :=
  match xs with
  | [] => ret s
  | x :: xs' => s' <- body x s ;; for_each xs' body s'
  end.

(** ** NumPy arrays (at most two dimensions) *)

Record ndarray (A : Type) : Type := mk_ndarray {
  shape : list Z;
  cells : list (list A)
}.
Arguments mk_ndarray {A} shape cells.
Arguments shape {A} _.
Arguments cells {A} _.

Definition rectangular {A} (m : list (list A)) : bool :=
  match m with
  | [] => true
  | r :: rest => forallb (fun r' => Nat.eqb (length r') (length r)) rest
  end.

Definition shape_of {A} (m : list (list A)) : list Z :=
  match m with
  | [] => [0]
  | r :: _ => [Z.of_nat (length m); Z.of_nat (length r)]
  end.

(** Equality of shape tuples. *)
Fixpoint tuple_eqb (s t : list Z) : bool :=
  match s, t with
  | [], [] => true
  | a :: s', b :: t' => (a =? b) && tuple_eqb s' t'
  | _, _ => false
  end.

(** The values of NumPy's [int] (a 64-bit C long). *)
Definition fits_int (v : Z) : bool := (- 2 ^ 63 <=? v) && (v <? 2 ^ 63).

Definition int_cells (m : list (list Z)) : bool :=
  forallb (forallb fits_int) m.

(** [np.array(matrix, dtype=int)] on a list of rows of integers (or on an
    integer array, which it copies): rows of unequal length are refused
    with a [ValueError] when the shape is worked out, and then a Python
    integer that does not fit the cell type with an [OverflowError]. *)
Definition np_array (matrix : list (list Z)) : result (ndarray Z) :=
  if rectangular matrix
  then
    if int_cells matrix
    then ret (mk_ndarray (shape_of matrix) matrix)
    else raise (OverflowError "Python int too large to convert to C long")
  else raise (ValueError "setting an array element with a sequence").

(** [np.zeros((rows, cols), dtype=int)] *)
Definition np_zeros (rows cols : Z) : ndarray Z :=
  mk_ndarray [rows; cols] (repeat (repeat 0 (Z.to_nat cols)) (Z.to_nat rows)).

(** Element-wise operations: [arr / 255.0], [arr < 0.7], [astype]. *)
Definition np_map {A B} (f : A -> B) (a : ndarray A) : ndarray B :=
  mk_ndarray (shape a) (map (map f) (cells a)).

(** An index [i] along an axis of length [n]: negative indices count
    from the end, everything else out of [0, n) is an [IndexError]. *)
Definition norm_index (i n : Z) : option nat :=
  if (0 <=? i) && (i <? n) then Some (Z.to_nat i)
  else if (- n <=? i) && (i <? 0) then Some (Z.to_nat (i + n))
  else None.

(** [a[r, c]] *)
Definition getitem {A} (a : ndarray A) (r c : Z) : result A :=
  match norm_index r (Z.of_nat (length (cells a))) with
  | None => raise (IndexError "index out of bounds for axis 0")
  | Some i =>
      match nth_error (cells a) i with
      | None => raise (IndexError "index out of bounds for axis 0")
      | Some row =>
          match norm_index c (Z.of_nat (length row)) with
          | None => raise (IndexError "index out of bounds for axis 1")
          | Some j =>
              match nth_error row j with
              | None => raise (IndexError "index out of bounds for axis 1")
              | Some v => ret v
              end
          end
      end
  end.

(** [l[i] = x] on a list, for [i] in range. *)
Fixpoint list_set {A} (l : list A) (i : nat) (x : A) : list A :=
  match l, i with
  | [], _ => []
  | _ :: l', O => x :: l'
  | y :: l', S i' => y :: list_set l' i' x
  end.

(** [a[r, c] = v] *)
Definition setitem {A} (a : ndarray A) (r c : Z) (v : A) : result (ndarray A) :=
  match norm_index r (Z.of_nat (length (cells a))) with
  | None => raise (IndexError "index out of bounds for axis 0")
  | Some i =>
      match nth_error (cells a) i with
      | None => raise (IndexError "index out of bounds for axis 0")
      | Some row =>
          match norm_index c (Z.of_nat (length row)) with
          | None => raise (IndexError "index out of bounds for axis 1")
          | Some j =>
              ret (mk_ndarray (shape a) (list_set (cells a) i (list_set row j v)))
          end
      end
  end.

(** A bound of a slice [lo:hi] along an axis of length [n]: negative
    bounds count from the end and every bound is clipped to [0, n]. *)
Definition slice_bound (i n : Z) : Z :=
  if i <? 0 then Z.max (i + n) 0 else Z.min i n.

(** [l[lo:hi]] *)
Definition slice {A} (l : list A) (lo hi : Z) : list A :=
  let n := Z.of_nat (length l) in
  let lo' := slice_bound lo n in
  let hi' := slice_bound hi n in
  firstn (Z.to_nat (hi' - lo')) (skipn (Z.to_nat lo') l).

(** [a[r0:r1, c0:c1]] *)
Definition getslice {A} (a : ndarray A) (r0 r1 c0 c1 : Z) : ndarray A :=
  let rows := map (fun row => slice row c0 c1) (slice (cells a) r0 r1) in
  let ncols := nth 1 (shape a) 0 in
  mk_ndarray
    [Z.of_nat (length rows);
     Z.max 0 (slice_bound c1 ncols - slice_bound c0 ncols)]
    rows.

(** 64-bit two's complement wrap-around of NumPy's [int] arithmetic. *)
Definition wrap64 (z : Z) : Z := (z + 2 ^ 63) mod 2 ^ 64 - 2 ^ 63.

(** [a.sum()] of an integer array. *)
Definition np_sum (a : ndarray Z) : Z :=
  fold_left (fun acc v => wrap64 (acc + v)) (concat (cells a)) 0.

(** Truth value of an integer cell: [if matrix[r, c]:] *)
Definition truthy (v : Z) : bool := negb (v =? 0).

(** ** [bytearray] *)

Definition bytearray : Type := list Z.

(** [data.append(b)]: [b] must be in [range(0, 256)]. *)
Definition bytearray_append (data : bytearray) (b : Z) : result bytearray :=
  if (0 <=? b) && (b <? 256) then ret (data ++ [b])
  else raise (ValueError "byte must be in range(0, 256)").

(** ** The serial port and the user interface, as far as [send_frame]
       touches them *)

(** [write_error data] is [Some e] when [ser.write(data)] raises [e]. *)
Record Serial : Type := mk_Serial {
  is_open : bool;
  write_error : bytearray -> option string
}.

Inductive event : Type :=
| st_error (msg : string)       (* st.error(msg) *)
| ser_write (data : bytearray). (* ser.write(data) was called *)

(** ** [send_frame] *)

Module Encoder.

(** Lines 38-43: the byte of row [r]. *)
Definition pack_row (matrix : ndarray Z) (r : Z) : result Z :=
  for_each (py_range 0 8)
    (fun c byte =>
       v <- getitem matrix r c ;;
       if truthy v
       then let bit_index := 7 - c in
            ret (Z.lor byte (Z.shiftl 1 bit_index))
       else ret byte)
    0.

(** Lines 34-44: the header byte, then one byte per row. *)
Definition pack (matrix : ndarray Z) : result bytearray :=
  data <- bytearray_append [] 0xAA ;;
  for_each (py_range 0 8)
    (fun r data =>
       byte <- pack_row matrix r ;;
       bytearray_append data byte)
    data.

(** Lines 30-44: conversion, shape check and packing. *)
Definition encode (matrix : list (list Z)) : result bytearray :=
  matrix <- np_array matrix ;;
  if negb (tuple_eqb (shape matrix) [8; 8])
  then raise (ValueError "Matrix must be 8x8")
  else pack matrix.

Definition send_frame (ser : option Serial) (matrix : list (list Z))
  : result (list event) :=
  match ser with
  | None =>
      ret [st_error "Serial not connected. Please connect in the sidebar."]
  | Some s =>
      if negb (is_open s)
      then ret [st_error "Serial not connected. Please connect in the sidebar."]
      else
        data <- encode matrix ;;
        match write_error s data with
        | None => ret [ser_write data]
        | Some e => ret [ser_write data; st_error ("Error writing to serial: " ++ e)%string]
        end
  end.

End Encoder.

(** ** [downsample_16_to_8] *)

Module Downsampler.

Definition downsample_16_to_8 (mat16 : ndarray Z) : result (ndarray Z) :=
  let out := np_zeros 8 8 in
  for_each (py_range 0 8)
    (fun r out =>
       for_each (py_range 0 8)
         (fun c out =>
            let block := getslice mat16 (r * 2) ((r + 1) * 2) (c * 2) ((c + 1) * 2) in
            setitem out r c (if 0 <? np_sum block then 1 else 0))
         out)
    out.

End Downsampler.

(** ** Pillow images *)

(** An image of pixel type [P]: its size and the pixel at each
    coordinate ([px img x y], column [x] of line [y]). *)
Record image (P : Type) : Type := mk_image {
  width : Z;
  height : Z;
  px : Z -> Z -> P
}.
Arguments mk_image {P} width height px.
Arguments width {P} _.
Arguments height {P} _.
Arguments px {P} _ _ _.

(** Intensity of a pixel of mode ["L"], 0 (black) to 255 (white). *)
Definition intensity (b : byte) : Z := Z.of_N (Byte.to_N b).

(** [Image.new("L", size, color)] *)
Definition Image_new (size : Z * Z) (color : byte) : image byte :=
  mk_image (fst size) (snd size) (fun _ _ => color).

(** [img.crop((x0, y0, x1, y1))]: pixels outside the source
    are 0. *)
Definition crop (img : image byte) (box : Z * Z * Z * Z) : image byte :=
  let '(x0, y0, x1, y1) := box in
  mk_image (x1 - x0) (y1 - y0)
    (fun x y =>
       let sx := x0 + x in
       let sy := y0 + y in
       if (0 <=? sx) && (sx <? width img) && (0 <=? sy) && (sy <? height img)
       then px img sx sy
       else x00).

(** [np.array(img)] of a mode ["L"] image: [height] rows of [width]
    unsigned bytes. *)
Definition np_array_image (img : image byte) : ndarray Z :=
  mk_ndarray [height img; width img]
    (map (fun y => map (fun x => intensity (px img x y)) (py_range 0 (width img)))
         (py_range 0 (height img))).

(** ** Single-precision arithmetic of [image_to_8x8] *)

Module Float32.

Definition prec : Z := 24.
Definition emax : Z := 128.

(** A Python [float] literal [num/den], correctly rounded to binary64. *)
Definition py_float (num den : Z) : spec_float :=
  SFdiv 53 1024 (binary_normalize 53 1024 num 0 false)
                (binary_normalize 53 1024 den 0 false).

(** Conversion of a Python scalar to [float32] (round to nearest even). *)
Definition of_py_float (x : spec_float) : spec_float :=
  match x with
  | S754_finite s m e => binary_normalize prec emax (cond_Zopp s (Zpos m)) e s
  | _ => x
  end.

(** [astype("float32")] of an unsigned byte. *)
Definition of_Z (n : Z) : spec_float := binary_normalize prec emax n 0 false.

Definition div (x y : spec_float) : spec_float := SFdiv prec emax x y.
Definition ltb (x y : spec_float) : bool := SFltb x y.

End Float32.

(** ** The two rasterizers *)

Section Rasterizers.

(** Pixel type of the input of [image_to_8x8] and Pillow's per-pixel
    conversion of it to mode ["L"] (the identity on a grayscale image). *)
Variable P : Type.
Variable luma : P -> byte.

(** [bilinear src size x y]: the pixel at [(x, y)] of [src] resampled to
    [size] with [Image.BILINEAR]. *)
Variable bilinear : image byte -> Z * Z -> Z -> Z -> byte.

(** [tmp_draw.textbbox((0, 0), text, font=font)] with the default font:
    (left, top, right, bottom). *)
Variable textbbox : string -> Z * Z * Z * Z.

(** [text_ink img xy text fill x y]: the pixel at [(x, y)] of [img] after
    [draw.text(xy, text, fill=fill, font=font)]. *)
Variable text_ink : image byte -> Z * Z -> string -> byte -> Z -> Z -> byte.

(** [img.convert("L")] *)
Definition convert_L (img : image P) : image byte :=
  mk_image (width img) (height img) (fun x y => luma (px img x y)).

(** [img.resize(size, Image.BILINEAR)] *)
Definition resize (img : image byte) (size : Z * Z) : image byte :=
  mk_image (fst size) (snd size) (bilinear img size).

(** [draw.text(xy, text, fill=fill, font=font)]: draws in place, the
    size of the image is unchanged. *)
Definition draw_text (img : image byte) (xy : Z * Z) (text : string)
    (fill : byte) : image byte :=
  mk_image (width img) (height img) (text_ink img xy text fill).

Definition image_to_8x8 (img : image P) : ndarray Z :=
  let img := convert_L img in
  let img := resize img (8, 8) in
  let arr := np_map Float32.of_Z (np_array_image img) in
  let arr :=
    np_map (fun v => Float32.div v (Float32.of_py_float (Float32.py_float 255 1))) arr in
  let mat :=
    np_map (fun b : bool => if b then 1 else 0)
      (np_map (fun v => Float32.ltb v (Float32.of_py_float (Float32.py_float 7 10))) arr) in
  mat.

(** Lines 58-74: the text rendered on a strip [w + 8] wide and scaled to
    [height] lines. *)
Definition scaled_strip (text : string) (height : Z) : image byte :=
  let bbox := textbbox text in
  let '(b0, b1, b2, b3) := bbox in
  let w := b2 - b0 in
  let h := b3 - b1 in
  let img := Image_new (w + 8, h) x00 in
  let img := draw_text img (0, - b1) text xff in
  resize img (width img, height).

(** Lines 79-81: the window at [x], cropped and thresholded. *)
Definition window_frame (img : image byte) (height x : Z) : ndarray Z :=
  let crop := crop img (x, 0, x + 8, height) in
  let arr := np_array_image crop in
  np_map (fun b : bool => if b then 1 else 0) (np_map (fun v => 128 <? v) arr).

(** Lines 77-81: one frame per window position. *)
Definition windows (img : image byte) (height : Z) : list (ndarray Z) :=
  fold_left
    (fun frames x => frames ++ [window_frame img height x])
    (py_range 0 (width img - 8 + 1))
    [].

(** [frames[-1]] *)
Definition py_last {A} (l : list A) : option A :=
  nth_error l (length l - 1).

(** Lines 83-84: the pause frame. *)
Definition with_pause (frames : list (ndarray Z)) : list (ndarray Z) :=
  match frames with
  | [] => frames
  | _ :: _ =>
      match py_last frames with
      | Some last => frames ++ [last]
      | None => frames
      end
  end.

Definition text_to_frames (text : string) (height : Z) : list (ndarray Z) :=
  match text with
  | EmptyString => []
  | String _ _ =>
      let img := scaled_strip text height in
      let frames := windows img height in
      with_pause frames
  end.

End Rasterizers.

(** ** The click grids *)

(** [str(n)], as an f-string prints an integer. *)
Definition py_str (n : Z) : string := NilZero.string_of_int (Z.to_int n).

(** Both grids read Streamlit checkboxes; [checkbox key] is the value of
    the checkbox created with that key. *)
Module Grids.

Definition matrix_from_checkboxes (checkbox : string -> bool)
  : result (ndarray Z) :=
  let matrix := np_zeros 8 8 in
  for_each (py_range 0 8)
    (fun r matrix =>
       for_each (py_range 0 8)
         (fun c matrix =>
            let key := ("cell_" ++ py_str r ++ "_" ++ py_str c)%string in
            let val := checkbox key in
            setitem matrix r c (if val then 1 else 0))
         matrix)
    matrix.

Definition draw_grid_16 (checkbox : string -> bool) : result (ndarray Z) :=
  let size := 16 in
  let mat := np_zeros size size in
  for_each (py_range 0 size)
    (fun r mat =>
       for_each (py_range 0 size)
         (fun c mat =>
            let key := ("drawing_" ++ py_str r ++ "_" ++ py_str c)%string in
            let val := checkbox key in
            setitem mat r c (if val then 1 else 0))
         mat)
    mat.

End Grids.

(** ** The application: connection state and the three send buttons *)

Module App.

(** The four entries [main] keeps in [st.session_state]. *)
Record session_state : Type := mk_session {
  ss_ser : option Serial;
  ss_connected : bool;
  ss_port : string;
  ss_baud : Z
}.

(** What the connection code does to the outside, in order. *)
Inductive app_event : Type :=
| serial_close (s : Serial)                 (* s.close() *)
| serial_open (port : string) (baud : Z)    (* serial.Serial(port, baudrate=baud, ...) *)
| sleep (seconds : Z)                       (* time.sleep(seconds) *)
| error_box (msg : string)                  (* st.error(msg) *)
| sidebar_success (msg : string)            (* st.sidebar.success(msg) *)
| sidebar_error (msg : string).             (* st.sidebar.error(msg) *)

(** Lines 161-168: the entries set on the first run. *)
Definition initial_session : session_state :=
  mk_session None false "COM12" 115200.

(** [x in l] and [l.index(x)] on a list of strings. *)
Definition py_in (x : string) (l : list string) : bool :=
  existsb (String.eqb x) l.

Fixpoint py_index (l : list string) (x : string) : result nat :=
  match l with
  | [] => raise (ValueError "x is not in list")
  | y :: l' =>
      if String.eqb y x then ret O
      else i <- py_index l' x ;; ret (S i)
  end.

(** [st.selectbox(label, options, index)]: the option the user picked,
    [options[index]] while the user has picked none.  Streamlit refuses
    an [index] outside the options; [None] stands for that. *)
Definition selectbox (options : list string) (index : nat)
    (picked : option nat) : option string :=
  match nth_error options index with
  | None => None
  | Some initial =>
      match picked with
      | None => Some initial
      | Some i => nth_error options i
      end
  end.

(** [st.text_input(label, value)]: what the user typed, [value] while
    the user has typed nothing. *)
Definition text_input (value : string) (typed : option string) : string :=
  match typed with
  | None => value
  | Some t => t
  end.

(** Lines 172-186: the port the sidebar resolves to, from the detected
    [ports], the remembered port and what the user did. *)
Definition select_port (ports : list string) (st : session_state)
    (picked : option nat) (typed : option string) : result (option string) :=
  let default_port := ss_port st in
  port <-
    match ports with
    | _ :: _ =>
        index <-
          (if py_in default_port ports then py_index ports default_port
           else ret (length ports)) ;;
        ret (selectbox (ports ++ ["Manual..."%string]) index picked)
    | [] => ret (Some "Manual..."%string)
    end ;;
  match port with
  | None => ret None
  | Some port =>
      if String.eqb port "Manual..."
      then ret (Some (text_input default_port typed))
      else ret (Some port)
  end.

Section Connection.

(** [serial.Serial(port, baudrate=baud, timeout=0.1)]: the handle, or
    the message of the exception it raised. *)
Variable serial_Serial : string -> Z -> string + Serial.

(** Lines 191-212: the handler of the Connect / Reconnect button. *)
Definition connect (st : session_state) (port : string) (baud : Z)
  : session_state * list app_event :=
  let closing :=
    match ss_ser st with
    | Some old => if is_open old then [serial_close old] else []
    | None => []
    end in
  match serial_Serial port baud with
  | inr ser =>
      (mk_session (Some ser) true port baud,
       closing ++ [serial_open port baud; sleep 2;
                   sidebar_success ("Connected to " ++ port)%string])
  | inl e =>
      (mk_session None false (ss_port st) (ss_baud st),
       closing ++ [serial_open port baud;
                   sidebar_error ("Connection failed: " ++ e)%string])
  end.

(** Lines 214-219: [main] goes on to the tabs only with a handle and
    the connected flag. *)
Definition tabs_shown (st : session_state) : bool :=
  match ss_ser st with
  | Some _ => ss_connected st
  | None => false
  end.

(** [st.session_state] as a dictionary from keys to handles, for
    [get_serial]. *)
Definition dict : Type := list (string * Serial).

Fixpoint dict_get (d : dict) (key : string) : option Serial :=
  match d with
  | [] => None
  | (k, v) :: d' => if String.eqb k key then Some v else dict_get d' key
  end.

Fixpoint dict_set (d : dict) (key : string) (v : Serial) : dict :=
  match d with
  | [] => [(key, v)]
  | (k, v') :: d' =>
      if String.eqb k key then (k, v) :: d' else (k, v') :: dict_set d' key v
  end.

(** Lines 11-23. *)
Definition get_serial (session : dict) (port : string) (baud : Z)
  : dict * option Serial * list app_event :=
  let key := ("ser_" ++ port ++ "_" ++ py_str baud)%string in
  match dict_get session key with
  | Some _ => (session, dict_get session key, [])
  | None =>
      match serial_Serial port baud with
      | inr s =>
          let session := dict_set session key s in
          (session, dict_get session key, [serial_open port baud; sleep 2])
      | inl e =>
          (session, None,
           [serial_open port baud;
            error_box ("Could not open serial port " ++ port ++ ": " ++ e)%string])
      end
  end.

End Connection.

(** Lines 232-235: every frame is sent in turn ([time.sleep] between
    two frames is not recorded).  A frame is handed to [send_frame] as
    the array it is; [np.array] copies it. *)
Definition send_frames (ser : option Serial) (frames : list (ndarray Z))
  : result (list event) :=
  for_each frames
    (fun frame log =>
       log' <- Encoder.send_frame ser (cells frame) ;;
       ret (log ++ log'))
    [].

(** Lines 240-248: the Update Matrix button. *)
Definition send_grid (ser : option Serial) (checkbox : string -> bool)
  : result (list event) :=
  matrix <- Grids.matrix_from_checkboxes checkbox ;;
  Encoder.send_frame ser (cells matrix).

End App.

(** ** Vocabulary of the statements *)

(** [rows] lines of [cols] cells each. *)
Definition has_dims {A} (rows cols : nat) (m : list (list A)) : bool :=
  Nat.eqb (length m) rows && forallb (fun r => Nat.eqb (length r) cols) m.

(** Every cell is 0 or 1. *)
Definition binary (m : list (list Z)) : bool :=
  forallb (forallb (fun v => (v =? 0) || (v =? 1))) m.

(** The cell in line [r], column [c] (0 outside the matrix). *)
Definition cell (m : list (list Z)) (r c : Z) : Z :=
  nth (Z.to_nat c) (nth (Z.to_nat r) m []) 0.

(** The matrix whose cell [(r, c)] is [g r c]. *)
Definition table {A} (rows cols : Z) (g : Z -> Z -> A) : list (list A) :=
  map (fun r => map (fun c => g r c) (py_range 0 cols)) (py_range 0 rows).

(** The loop body of [pack_row] once the cell has been read, and the
    value the loop computes for line [r]. *)
Definition row_step (m : list (list Z)) (r c byte : Z) : Z :=
  if truthy (cell m r c) then Z.lor byte (Z.shiftl 1 (7 - c)) else byte.

Definition row_value (m : list (list Z)) (r : Z) : Z :=
  fold_left (fun byte c => row_step m r c byte) (py_range 0 8) 0.

(** The inverse bit-unpack the specification describes for a wire
    frame (the program has no decoder): cell [(r, c)] is bit [7 - c] of
    the row byte at offset [r + 1]. *)
Definition decode_spec (frame : bytearray) : list (list Z) :=
  table 8 8
    (fun r c => if Z.testbit (nth (Z.to_nat (r + 1)) frame 0) (7 - c) then 1 else 0).

(** Every nonzero cell replaced by 1. *)
Definition binarize (m : list (list Z)) : list (list Z) :=
  map (map (fun v => if v =? 0 then 0 else 1)) m.

(** Sample inputs of the worked examples. *)
Module Sample.

(** An 8x8 bitmap of the letter A. *)
Definition glyph_A : list (list Z) :=
  [ [0; 0; 0; 1; 1; 0; 0; 0];
    [0; 0; 1; 0; 0; 1; 0; 0];
    [0; 1; 0; 0; 0; 0; 1; 0];
    [0; 1; 0; 0; 0; 0; 1; 0];
    [0; 1; 1; 1; 1; 1; 1; 0];
    [0; 1; 0; 0; 0; 0; 1; 0];
    [0; 1; 0; 0; 0; 0; 1; 0];
    [0; 0; 0; 0; 0; 0; 0; 0] ].

(** The same bitmap with other nonzero values in its lit cells. *)
Definition glyph_A_levels : list (list Z) :=
  map (map (fun v => v * 200 - v * 3)) glyph_A.

(** A serial port that is open and whose writes succeed. *)
Definition open_port : Serial := mk_Serial true (fun _ => None).

(** A serial port that is open and whose writes all fail. *)
Definition broken_port : Serial :=
  mk_Serial true (fun _ => Some "write timeout"%string).

(** A serial port that has been closed. *)
Definition closed_port : Serial := mk_Serial false (fun _ => None).

(** A 16x16 drawing: the main diagonal and the upper half of the
    other one. *)
Definition grid16 : ndarray Z :=
  mk_ndarray [16; 16]
    (table 16 16
       (fun r c => if (r =? c) || ((r + c =? 15) && (r <? 8)) then 1 else 0)).

(** The same drawing in gray levels, 255 for a lit pixel. *)
Definition gray16 : ndarray Z :=
  mk_ndarray [16; 16] (map (map (fun v => v * 255)) (cells grid16)).

(** An 8x8 list of rows one of whose integers does not fit a NumPy
    [int]. *)
Definition glyph_A_huge : list (list Z) :=
  map (map (fun v => v * 2 ^ 64)) glyph_A.

(** A machine on which only COM3 can be opened. *)
Definition only_COM3 (port : string) (baud : Z) : string + Serial :=
  if String.eqb port "COM3" then inr open_port
  else inl "could not open port"%string.

(** Stand-ins for Pillow in the worked examples: a fixed-pitch font
    whose glyphs are 6 pixels wide and 9 high, drawn as a checkerboard,
    and resampling by nearest neighbour. *)
Definition bbox (text : string) : Z * Z * Z * Z :=
  (0, 2, 6 * Z.of_nat (String.length text), 11).

Definition ink (img : image byte) (xy : Z * Z) (text : string) (fill : byte)
    (x y : Z) : byte :=
  if (0 <=? x) && (x <? 6 * Z.of_nat (String.length text))
     && Z.even (x + y)
  then fill else px img x y.

Definition nearest (src : image byte) (size : Z * Z) (x y : Z) : byte :=
  px src (x * width src / fst size) (y * height src / snd size).

End Sample.

(** An image of one colour, and a resampling filter that maps every
    image of colour [v] to an image of colour [v]. *)
Definition flat (img : image byte) (v : byte) : Prop :=
  0 < width img /\ 0 < height img /\
  forall i j, 0 <= i < width img -> 0 <= j < height img -> px img i j = v.

Definition keeps_flat (bilinear : image byte -> Z * Z -> Z -> Z -> byte)
    (v : byte) : Prop :=
  forall src size x y,
    flat src v -> 0 <= x < fst size -> 0 <= y < snd size ->
    bilinear src size x y = v.

(** Case analysis on an index known to lie in [0, 8). *)
Ltac each_index c :=
  let H := fresh "Hidx" in
  assert (H : c = 0 \/ c = 1 \/ c = 2 \/ c = 3 \/ c = 4 \/ c = 5
              \/ c = 6 \/ c = 7) by lia;
  destruct H as [-> | [-> | [-> | [-> | [-> | [-> | [-> | ->]]]]]]].

(** A row of cells read as a binary number, leftmost cell first; a
    nonzero cell is a 1 bit. *)
Definition row_number (row : list Z) : Z :=
  fold_left (fun acc v => 2 * acc + (if v =? 0 then 0 else 1)) row 0.

(** The frames handed to [ser.write] in a log, in order. *)
Definition writes (log : list event) : list bytearray :=
  flat_map (fun e => match e with ser_write data => [data] | st_error _ => [] end)
           log.

(** What [send_frame] does with one 8x8 frame, whatever the port does
    with it. *)
Definition sent (ser : option Serial) (frame : ndarray Z) : list event :=
  match ser with
  | None => [st_error "Serial not connected. Please connect in the sidebar."]
  | Some s =>
      if is_open s
      then
        match write_error s (0xAA :: map row_number (cells frame)) with
        | None => [ser_write (0xAA :: map row_number (cells frame))]
        | Some e =>
            [ser_write (0xAA :: map row_number (cells frame));
             st_error ("Error writing to serial: " ++ e)%string]
        end
      else [st_error "Serial not connected. Please connect in the sidebar."]
  end.

(** The keys of the checkboxes of the two grids. *)
Definition cell_key (r c : Z) : string :=
  ("cell_" ++ py_str r ++ "_" ++ py_str c)%string.

Definition drawing_key (r c : Z) : string :=
  ("drawing_" ++ py_str r ++ "_" ++ py_str c)%string.

(** Every key [main] and the grids give to a widget. *)
Definition widget_keys : list string :=
  concat (table 8 8 cell_key) ++ concat (table 16 16 drawing_key)
  ++ ["draw_canvas"%string].

(** The checkboxes of the 8x8 grid ticked so as to show [m]. *)
Definition checks_of (m : list (list Z)) (key : string) : bool :=
  existsb
    (fun r =>
       existsb (fun c => String.eqb (cell_key r c) key && (cell m r c =? 1))
               (py_range 0 8))
    (py_range 0 8).




(** The session states [main] can reach: the first run, then any number
    of presses of the Connect button, each with its own outcome of
    opening the port. *)
Inductive reachable : App.session_state -> Prop :=
| reachable_initial : reachable App.initial_session
| reachable_connect (serial_Serial : string -> Z -> string + Serial)
    (st : App.session_state) (port : string) (baud : Z) :
    reachable st -> reachable (fst (App.connect serial_Serial st port baud)).

(** * Properties *)

(** ** Ranges and loops *)

Lemma py_range_length (a b : Z) :
  length (py_range a b) = Z.to_nat (b - a).
Proof. unfold py_range. now rewrite length_map, length_seq. Qed.

Lemma py_range_nth_error (a b : Z) (i : nat) :
  (i < Z.to_nat (b - a))%nat ->
  nth_error (py_range a b) i = Some (a + Z.of_nat i).
Proof.
  intros Hi. unfold py_range.
  rewrite nth_error_map, nth_error_seq.
  destruct (Nat.ltb_spec i (Z.to_nat (b - a))); [reflexivity | lia].
Qed.

Lemma py_range_In (a b x : Z) : In x (py_range a b) <-> a <= x < b.
Proof.
  unfold py_range. rewrite in_map_iff. split.
  - intros [i [<- Hi]]. apply in_seq in Hi. lia.
  - intros Hx. exists (Z.to_nat (x - a)). split; [lia |].
    apply in_seq. lia.
Qed.

Lemma py_range_map_nth {B} (f : Z -> B) (n i : Z) (d : B) :
  0 <= i < n ->
  nth (Z.to_nat i) (map f (py_range 0 n)) d = f i.
Proof.
  intros Hi. apply nth_error_nth.
  rewrite nth_error_map, py_range_nth_error by lia.
  simpl. f_equal. f_equal. lia.
Qed.

(** A loop whose body never raises is a left fold. *)
Lemma for_each_pure {A S} (xs : list A) (body : A -> S -> result S)
    (g : A -> S -> S) (s : S) :
  (forall x s', In x xs -> body x s' = inr (g x s')) ->
  for_each xs body s = inr (fold_left (fun s' x => g x s') xs s).
Proof.
  revert s. induction xs as [| x xs IH]; intros s Hbody; simpl.
  - reflexivity.
  - rewrite Hbody by (now left). simpl.
    apply IH. intros y s' Hy. apply Hbody. now right.
Qed.

Lemma fold_left_snoc {A B} (f : A -> B) (xs : list A) (acc : list B) :
  fold_left (fun acc' x => acc' ++ [f x]) xs acc = acc ++ map f xs.
Proof.
  revert acc. induction xs as [| x xs IH]; intros acc; simpl.
  - now rewrite app_nil_r.
  - rewrite IH, <- app_assoc. reflexivity.
Qed.

(** ** Matrices given as lists of rows *)

Lemma has_dims_length {A} rows cols (m : list (list A)) :
  has_dims rows cols m = true ->
  length m = rows /\ forall r, In r m -> length r = cols.
Proof.
  unfold has_dims. rewrite andb_true_iff, Nat.eqb_eq, forallb_forall.
  intros [Hlen Hrows]. split; [exact Hlen |].
  intros r Hr. apply Nat.eqb_eq. now apply Hrows.
Qed.

Lemma has_dims_row {A} rows cols (m : list (list A)) (i : nat) :
  has_dims rows cols m = true -> (i < rows)%nat ->
  exists row, nth_error m i = Some row /\ length row = cols.
Proof.
  intros Hd Hi. destruct (has_dims_length _ _ _ Hd) as [Hlen Hrows].
  destruct (nth_error m i) as [row |] eqn:E.
  - exists row. split; [reflexivity |]. apply Hrows. eapply nth_error_In; eauto.
  - apply nth_error_None in E. lia.
Qed.

Lemma binary_cell (m : list (list Z)) (r c : Z) :
  binary m = true -> cell m r c = 0 \/ cell m r c = 1.
Proof.
  intros Hb. unfold cell.
  destruct (nth_in_or_default (Z.to_nat r) m []) as [Hin | ->].
  - unfold binary in Hb. rewrite forallb_forall in Hb.
    specialize (Hb _ Hin). rewrite forallb_forall in Hb.
    destruct (nth_in_or_default (Z.to_nat c) (nth (Z.to_nat r) m []) 0)
      as [Hin' | ->]; [| now left].
    specialize (Hb _ Hin'). lia.
  - left. now destruct (Z.to_nat c).
Qed.

Lemma table_cell rows cols (g : Z -> Z -> Z) (r c : Z) :
  0 <= r < rows -> 0 <= c < cols ->
  cell (table rows cols g) r c = g r c.
Proof.
  intros Hr Hc. unfold cell, table.
  rewrite (py_range_map_nth _ rows r) by lia.
  now rewrite py_range_map_nth by lia.
Qed.

Lemma table_has_dims {A} (rows cols : Z) (g : Z -> Z -> A) :
  has_dims (Z.to_nat rows) (Z.to_nat cols) (table rows cols g) = true.
Proof.
  unfold has_dims, table. rewrite length_map, py_range_length, Z.sub_0_r.
  rewrite Nat.eqb_refl. simpl. apply forallb_forall.
  intros row Hrow. apply in_map_iff in Hrow. destruct Hrow as [r [<- _]].
  rewrite length_map, py_range_length, Z.sub_0_r. apply Nat.eqb_refl.
Qed.

(** A matrix of known size is the table of its cells. *)
Lemma matrix_is_table (rows cols : nat) (m : list (list Z)) :
  has_dims rows cols m = true ->
  m = table (Z.of_nat rows) (Z.of_nat cols) (cell m).
Proof.
  intros Hd. destruct (has_dims_length _ _ _ Hd) as [Hlen Hrows].
  apply (nth_ext _ _ [] []).
  - unfold table. rewrite length_map, py_range_length. lia.
  - intros i Hi. unfold table.
    replace i with (Z.to_nat (Z.of_nat i)) at 2 by lia.
    rewrite (py_range_map_nth _ (Z.of_nat rows)) by lia.
    assert (Hrow : length (nth i m []) = cols)
      by (apply Hrows, nth_In; lia).
    apply (nth_ext _ _ 0 0).
    + rewrite length_map, py_range_length. lia.
    + intros j Hj.
      replace j with (Z.to_nat (Z.of_nat j)) at 2 by lia.
      rewrite (py_range_map_nth _ (Z.of_nat cols)) by lia.
      unfold cell. now rewrite !Nat2Z.id.
Qed.

Lemma getitem_cell (a : ndarray Z) (rows cols : nat) (r c : Z) :
  has_dims rows cols (cells a) = true ->
  0 <= r < Z.of_nat rows -> 0 <= c < Z.of_nat cols ->
  getitem a r c = inr (cell (cells a) r c).
Proof.
  intros Hd Hr Hc.
  destruct (has_dims_length _ _ _ Hd) as [Hlen _].
  destruct (has_dims_row _ _ _ (Z.to_nat r) Hd) as [row [Hrow Hrl]]; [lia |].
  unfold getitem, norm_index. rewrite Hlen.
  destruct (Z.leb_spec 0 r); [| lia].
  destruct (Z.ltb_spec r (Z.of_nat rows)); [| lia]. simpl.
  rewrite Hrow, Hrl.
  destruct (Z.leb_spec 0 c); [| lia].
  destruct (Z.ltb_spec c (Z.of_nat cols)); [| lia]. simpl.
  destruct (nth_error row (Z.to_nat c)) as [v |] eqn:E.
  - unfold ret, cell. f_equal.
    rewrite (nth_error_nth _ _ _ Hrow).
    symmetry. now apply nth_error_nth.
  - apply nth_error_None in E. lia.
Qed.

(** ** The encoder *)

Lemma shiftl_bit_range (c : Z) : 0 <= c < 8 -> 0 <= Z.shiftl 1 (7 - c) < 256.
Proof.
  intros Hc. rewrite Z.shiftl_1_l. split.
  - apply Z.pow_nonneg. lia.
  - change 256 with (2 ^ 8). apply Z.pow_lt_mono_r; lia.
Qed.

Lemma lor_byte_range (a b : Z) :
  0 <= a < 256 -> 0 <= b < 256 -> 0 <= Z.lor a b < 256.
Proof.
  intros Ha Hb.
  assert (Hnn : 0 <= Z.lor a b) by (apply Z.lor_nonneg; lia).
  split; [exact Hnn |].
  destruct (Z.eq_dec (Z.lor a b) 0) as [-> | Hne]; [lia |].
  change 256 with (2 ^ 8). apply Z.log2_lt_pow2; [lia |].
  rewrite Z.log2_lor by lia.
  assert (Hlog : forall x, 0 <= x < 256 -> Z.log2 x < 8).
  { intros x Hx. destruct (Z.eq_dec x 0) as [-> | Hx0]; [reflexivity |].
    apply Z.log2_lt_pow2; [lia |]. change (2 ^ 8) with 256. lia. }
  apply Z.max_lub_lt; apply Hlog; assumption.
Qed.

Lemma row_step_range (m : list (list Z)) (r c byte : Z) :
  0 <= c < 8 -> 0 <= byte < 256 -> 0 <= row_step m r c byte < 256.
Proof.
  intros Hc Hb. unfold row_step. destruct (truthy (cell m r c)); [| exact Hb].
  apply lor_byte_range; [exact Hb |]. now apply shiftl_bit_range.
Qed.

Lemma row_fold_range (m : list (list Z)) (r : Z) (cs : list Z) (acc : Z) :
  (forall c, In c cs -> 0 <= c < 8) -> 0 <= acc < 256 ->
  0 <= fold_left (fun byte c => row_step m r c byte) cs acc < 256.
Proof.
  revert acc. induction cs as [| c cs IH]; intros acc Hcs Hacc; simpl.
  - exact Hacc.
  - apply IH.
    + intros c' Hc'. apply Hcs. now right.
    + apply row_step_range; [apply Hcs; now left | exact Hacc].
Qed.

Lemma row_value_range (m : list (list Z)) (r : Z) : 0 <= row_value m r < 256.
Proof.
  unfold row_value. apply row_fold_range; [| lia].
  intros c Hc. now apply py_range_In in Hc.
Qed.

(** Bit [i] of the byte after the columns [cs] have been visited. *)
Lemma row_fold_testbit (m : list (list Z)) (r : Z) (cs : list Z) (acc i : Z) :
  (forall c, In c cs -> 0 <= c < 8) -> 0 <= i ->
  Z.testbit (fold_left (fun byte c => row_step m r c byte) cs acc) i
  = Z.testbit acc i
    || existsb (fun c => (7 - c =? i) && truthy (cell m r c)) cs.
Proof.
  revert acc. induction cs as [| c cs IH]; intros acc Hcs Hi;
    cbn [fold_left existsb].
  - now rewrite orb_false_r.
  - rewrite IH by (auto; intros c' Hc'; apply Hcs; now right).
    assert (Hc : 0 <= c < 8) by (apply Hcs; now left).
    unfold row_step at 1. destruct (truthy (cell m r c)).
    + rewrite Z.lor_spec, Z.shiftl_spec by lia.
      destruct (Z.eqb_spec (7 - c) i) as [<- | Hne].
      * rewrite Z.sub_diag. change (Z.testbit 1 0) with true.
        now destruct (Z.testbit acc (7 - c)).
      * replace (Z.testbit 1 (i - (7 - c))) with false.
        -- now rewrite orb_false_r.
        -- symmetry. destruct (Z.ltb_spec (i - (7 - c)) 0).
           ++ now apply Z.testbit_neg_r.
           ++ apply Z.bits_above_log2; [lia | change (Z.log2 1) with 0; lia].
    + now rewrite andb_false_r.
Qed.

Lemma row_value_testbit (m : list (list Z)) (r c : Z) :
  0 <= c < 8 ->
  Z.testbit (row_value m r) (7 - c) = truthy (cell m r c).
Proof.
  intros Hc. unfold row_value.
  rewrite row_fold_testbit; [| intros c' Hc'; now apply py_range_In in Hc' | lia].
  rewrite Z.bits_0, orb_false_l.
  apply eq_true_iff_eq. rewrite existsb_exists. split.
  - intros [c' [_ Hc']]. apply andb_true_iff in Hc'. destruct Hc' as [He Ht].
    apply Z.eqb_eq in He. now replace c with c' by lia.
  - intros Ht. exists c. split; [apply py_range_In; lia |].
    now rewrite Z.eqb_refl, Ht.
Qed.

Lemma pack_row_value (a : ndarray Z) (r : Z) :
  has_dims 8 8 (cells a) = true -> 0 <= r < 8 ->
  Encoder.pack_row a r = inr (row_value (cells a) r).
Proof.
  intros Hd Hr. unfold Encoder.pack_row, row_value.
  apply for_each_pure. intros c byte Hc. apply py_range_In in Hc.
  rewrite (getitem_cell a 8 8) by (auto; lia).
  unfold row_step. simpl. now destruct (truthy (cell (cells a) r c)).
Qed.

Lemma pack_value (a : ndarray Z) :
  has_dims 8 8 (cells a) = true ->
  Encoder.pack a = inr (0xAA :: map (row_value (cells a)) (py_range 0 8)).
Proof.
  intros Hd. unfold Encoder.pack.
  change (bytearray_append [] 0xAA) with (@inr exn bytearray [0xAA]).
  unfold bind at 1. cbv beta iota.
  rewrite (for_each_pure _ _ (fun r data => data ++ [row_value (cells a) r])).
  - now rewrite (fold_left_snoc (row_value (cells a))).
  - intros r data Hr. apply py_range_In in Hr.
    rewrite pack_row_value by (auto; lia). simpl.
    unfold bytearray_append.
    pose proof (row_value_range (cells a) r) as Hb.
    destruct (Z.leb_spec 0 (row_value (cells a) r)); [| lia].
    destruct (Z.ltb_spec (row_value (cells a) r) 256); [| lia].
    reflexivity.
Qed.

Lemma has_dims_rectangular {A} (rows cols : nat) (m : list (list A)) :
  has_dims rows cols m = true -> rectangular m = true.
Proof.
  intros Hd. destruct (has_dims_length _ _ _ Hd) as [_ Hrows].
  destruct m as [| r rest]; [reflexivity |]. simpl.
  apply forallb_forall. intros r' Hr'. apply Nat.eqb_eq.
  rewrite (Hrows r) by (now left). apply Hrows. now right.
Qed.

Lemma binary_int_cells (m : list (list Z)) :
  binary m = true -> int_cells m = true.
Proof.
  unfold binary, int_cells. rewrite !forallb_forall.
  intros Hb row Hrow. specialize (Hb row Hrow).
  rewrite forallb_forall in Hb |- *. intros v Hv. specialize (Hb v Hv).
  unfold fits_int. change (2 ^ 63) with 9223372036854775808. lia.
Qed.

Lemma np_array_8x8 (m : list (list Z)) :
  has_dims 8 8 m = true -> int_cells m = true ->
  np_array m = inr (mk_ndarray [8; 8] m).
Proof.
  intros Hd Hi. unfold np_array.
  rewrite (has_dims_rectangular _ _ _ Hd), Hi.
  destruct (has_dims_length _ _ _ Hd) as [Hlen Hrows].
  destruct m as [| r rest]; [discriminate |].
  unfold shape_of. rewrite Hlen, (Hrows r) by (now left). reflexivity.
Qed.

(** What lines 30-44 compute for an 8x8 matrix. *)
Lemma encode_8x8 (m : list (list Z)) :
  has_dims 8 8 m = true -> int_cells m = true ->
  Encoder.encode m = inr (0xAA :: map (row_value m) (py_range 0 8)).
Proof.
  intros Hd Hi. unfold Encoder.encode. rewrite np_array_8x8 by assumption.
  simpl. now apply pack_value.
Qed.

(** What lines 30-32 do with anything else. *)
Lemma encode_wrong_shape (m : list (list Z)) :
  rectangular m = true -> int_cells m = true -> has_dims 8 8 m = false ->
  Encoder.encode m = inl (ValueError "Matrix must be 8x8").
Proof.
  intros Hrect Hi Hd. unfold Encoder.encode, np_array. rewrite Hrect, Hi.
  unfold ret, bind. cbn [shape].
  destruct (tuple_eqb (shape_of m) [8; 8]) eqn:Hshape; [| reflexivity].
  exfalso. destruct m as [| r rest]; [discriminate |].
  unfold shape_of in Hshape. cbn [tuple_eqb] in Hshape.
  rewrite andb_true_r in Hshape. apply andb_true_iff in Hshape.
  destruct Hshape as [H1 H2]. apply Z.eqb_eq in H1, H2.
  assert (Hall : has_dims 8 8 (r :: rest) = true).
  { unfold has_dims. apply andb_true_iff. split.
    - apply Nat.eqb_eq. lia.
    - simpl. apply andb_true_iff. split; [apply Nat.eqb_eq; lia |].
      simpl in Hrect. rewrite forallb_forall in Hrect |- *.
      intros r' Hr'. specialize (Hrect _ Hr').
      apply Nat.eqb_eq in Hrect. apply Nat.eqb_eq. lia. }
  congruence.
Qed.

Lemma encode_ragged (m : list (list Z)) :
  rectangular m = false ->
  Encoder.encode m
  = inl (ValueError "setting an array element with a sequence").
Proof.
  intros Hrect. unfold Encoder.encode, np_array. now rewrite Hrect.
Qed.

Lemma encode_overflow (m : list (list Z)) :
  rectangular m = true -> int_cells m = false ->
  Encoder.encode m
  = inl (OverflowError "Python int too large to convert to C long").
Proof.
  intros Hrect Hi. unfold Encoder.encode, np_array. now rewrite Hrect, Hi.
Qed.

Lemma encode_not_8x8 (m : list (list Z)) :
  has_dims 8 8 m = false -> int_cells m = true ->
  exists msg, Encoder.encode m = inl (ValueError msg).
Proof.
  intros Hd Hi. destruct (rectangular m) eqn:Hrect.
  - eexists. now apply encode_wrong_shape.
  - eexists. now apply encode_ragged.
Qed.

(** Without 8 rows of 8 cells there is never a frame. *)
Lemma encode_not_8x8_raises (m : list (list Z)) :
  has_dims 8 8 m = false -> exists e, Encoder.encode m = inl e.
Proof.
  intros Hd. destruct (rectangular m) eqn:Hrect.
  - destruct (int_cells m) eqn:Hi.
    + eexists. now apply encode_wrong_shape.
    + eexists. now apply encode_overflow.
  - eexists. now apply encode_ragged.
Qed.

Lemma fold_left_ext_in {A B} (f g : A -> B -> A) (l : list B) (a : A) :
  (forall x a', In x l -> f a' x = g a' x) ->
  fold_left f l a = fold_left g l a.
Proof.
  revert a. induction l as [| x l IH]; intros a Hfg; simpl.
  - reflexivity.
  - rewrite Hfg by (now left). apply IH. intros y a' Hy. apply Hfg. now right.
Qed.

Lemma table_ext {A} (rows cols : Z) (g g' : Z -> Z -> A) :
  (forall r c, 0 <= r < rows -> 0 <= c < cols -> g r c = g' r c) ->
  table rows cols g = table rows cols g'.
Proof.
  intros Hg. unfold table. apply map_ext_in. intros r Hr.
  apply map_ext_in. intros c Hc. apply py_range_In in Hr, Hc. now apply Hg.
Qed.

(** The row byte depends on the cells of its line only through their
    truth values. *)
Lemma row_value_ext (m m' : list (list Z)) (r r' : Z) :
  (forall c, 0 <= c < 8 -> truthy (cell m r c) = truthy (cell m' r' c)) ->
  row_value m r = row_value m' r'.
Proof.
  intros Ht. unfold row_value. apply fold_left_ext_in.
  intros c byte Hc. apply py_range_In in Hc.
  unfold row_step. now rewrite Ht.
Qed.

Lemma frame_row_byte (m : list (list Z)) (r : Z) :
  0 <= r < 8 ->
  nth (Z.to_nat (r + 1)) (0xAA :: map (row_value m) (py_range 0 8)) 0
  = row_value m r.
Proof.
  intros Hr. replace (Z.to_nat (r + 1)) with (S (Z.to_nat r)) by lia.
  cbn [nth]. now apply py_range_map_nth.
Qed.

Lemma binarize_has_dims (rows cols : nat) (m : list (list Z)) :
  has_dims rows cols m = true -> has_dims rows cols (binarize m) = true.
Proof.
  unfold has_dims, binarize. rewrite length_map, !andb_true_iff.
  intros [Hlen Hrows]. split; [exact Hlen |].
  rewrite forallb_forall in Hrows |- *. intros row Hrow.
  apply in_map_iff in Hrow. destruct Hrow as [row0 [<- Hin]].
  rewrite length_map. now apply Hrows.
Qed.

Lemma binarize_cell (m : list (list Z)) (r c : Z) :
  cell (binarize m) r c = if cell m r c =? 0 then 0 else 1.
Proof.
  unfold cell, binarize.
  set (f := fun v : Z => if v =? 0 then 0 else 1).
  change (nth (Z.to_nat r) (map (map f) m) [])
    with (nth (Z.to_nat r) (map (map f) m) (map f [])).
  rewrite map_nth.
  change (nth (Z.to_nat c) (map f (nth (Z.to_nat r) m [])) 0)
    with (nth (Z.to_nat c) (map f (nth (Z.to_nat r) m [])) (f 0)).
  now rewrite map_nth.
Qed.

(** C1: for every 8x8 binary matrix the packing step of [send_frame]
    produces exactly 9 bytes: the header 0xAA, then one byte per row from
    top to bottom; the byte of row [r] is below 256 and has bit [7 - c]
    set exactly when cell [(r, c)] is lit.  An all-zero matrix gives 8
    zero bytes after the header, an all-one matrix gives 0xFF for every
    row, and these 9 bytes are what an open port is asked to write. *)
Theorem encode_frame_layout (m : list (list Z)) :
  has_dims 8 8 m = true -> binary m = true ->
  exists data,
    Encoder.encode m = inr data /\
    length data = 9%nat /\
    nth_error data 0 = Some 0xAA /\
    (forall r, 0 <= r < 8 -> 0 <= nth (Z.to_nat (r + 1)) data 0 < 256) /\
    (forall r c, 0 <= r < 8 -> 0 <= c < 8 ->
       Z.testbit (nth (Z.to_nat (r + 1)) data 0) (7 - c) = true
       <-> cell m r c = 1) /\
    ((forall r c, 0 <= r < 8 -> 0 <= c < 8 -> cell m r c = 0) ->
       data = 0xAA :: repeat 0 8) /\
    ((forall r c, 0 <= r < 8 -> 0 <= c < 8 -> cell m r c = 1) ->
       data = 0xAA :: repeat 0xFF 8) /\
    (forall s, is_open s = true ->
       exists log, Encoder.send_frame (Some s) m = inr (ser_write data :: log)).
Proof.
  intros Hd Hb. pose proof (binary_int_cells m Hb) as Hi.
  exists (0xAA :: map (row_value m) (py_range 0 8)).
  split; [now apply encode_8x8 |].
  split; [reflexivity |].
  split; [reflexivity |].
  split; [| split; [| split; [| split]]].
  - intros r Hr. rewrite frame_row_byte by assumption. apply row_value_range.
  - intros r c Hr Hc. rewrite frame_row_byte, row_value_testbit by assumption.
    unfold truthy. destruct (binary_cell m r c Hb) as [-> | ->]; simpl.
    + split; intros H; discriminate H.
    + split; reflexivity.
  - intros Hz. f_equal.
    rewrite (map_ext_in _ (fun _ => 0)); [reflexivity |].
    intros r Hr. apply py_range_In in Hr.
    rewrite (row_value_ext m (repeat (repeat 0 8%nat) 8%nat) r 0);
      [reflexivity |].
    intros c Hc. rewrite Hz by assumption. now each_index c.
  - intros Ho. f_equal.
    rewrite (map_ext_in _ (fun _ => 0xFF)); [reflexivity |].
    intros r Hr. apply py_range_In in Hr.
    rewrite (row_value_ext m (repeat (repeat 1 8%nat) 8%nat) r 0);
      [reflexivity |].
    intros c Hc. rewrite Ho by assumption. now each_index c.
  - intros s Hs. unfold Encoder.send_frame. rewrite Hs.
    rewrite encode_8x8 by assumption. cbn [negb bind].
    destruct (write_error s _); eexists; reflexivity.
Qed.

Lemma encode_frame_layout_witness :
  exists data,
    Encoder.encode Sample.glyph_A = inr data /\
    data = [0xAA; 0x18; 0x24; 0x42; 0x42; 0x7E; 0x42; 0x42; 0x00].
Proof.
  destruct (encode_frame_layout Sample.glyph_A eq_refl eq_refl)
    as [data [Henc _]].
  exists data. split; [exact Henc |].
  vm_compute in Henc. now inversion Henc.
Defined.

(** C2: the encoder (lines 30-44) rejects every matrix that is not
    exactly 8 rows by 8 columns: it raises and never returns a frame,
    and what it raises is a [ValueError] whenever the cells are NumPy
    integers ("Matrix must be 8x8" when the rows have equal lengths).
    [send_frame] on an open port raises the same exception; without an
    open port its connection guard comes first, it reports the missing
    connection and returns.  In no case is anything written. *)
Theorem send_frame_rejects_wrong_shape (m : list (list Z)) :
  has_dims 8 8 m = false ->
  (exists e, Encoder.encode m = inl e) /\
  (int_cells m = true ->
     (exists msg, Encoder.encode m = inl (ValueError msg)) /\
     (rectangular m = true ->
      Encoder.encode m = inl (ValueError "Matrix must be 8x8"))) /\
  (forall s, is_open s = true ->
     Encoder.send_frame (Some s) m = bind (Encoder.encode m) (fun _ => ret []) /\
     exists e, Encoder.send_frame (Some s) m = inl e) /\
  (forall s, is_open s = true -> int_cells m = true ->
     exists msg, Encoder.send_frame (Some s) m = inl (ValueError msg)) /\
  Encoder.send_frame None m
  = inr [st_error "Serial not connected. Please connect in the sidebar."] /\
  (forall s, is_open s = false ->
     Encoder.send_frame (Some s) m
     = inr [st_error "Serial not connected. Please connect in the sidebar."]) /\
  (forall ser log, Encoder.send_frame ser m = inr log -> writes log = []).
Proof.
  intros Hd. destruct (encode_not_8x8_raises m Hd) as [e He].
  split; [now exists e |].
  split; [| split; [| split; [| split; [| split]]]].
  - intros Hi. split; [now apply encode_not_8x8 |].
    intros Hrect. now apply encode_wrong_shape.
  - intros s Ho. unfold Encoder.send_frame. rewrite Ho, He. cbn [negb bind].
    split; [reflexivity | now exists e].
  - intros s Ho Hi. destruct (encode_not_8x8 m Hd Hi) as [msg Hmsg].
    exists msg. unfold Encoder.send_frame. now rewrite Ho, Hmsg.
  - reflexivity.
  - intros s Hc. unfold Encoder.send_frame. now rewrite Hc.
  - intros ser log. unfold Encoder.send_frame.
    destruct ser as [s |]; [destruct (is_open s) |]; cbn [negb].
    + rewrite He. discriminate.
    + intros H. now inversion H.
    + intros H. now inversion H.
Qed.

Lemma send_frame_rejects_wrong_shape_witness :
  Encoder.encode [[1; 0]; [0; 1]] = inl (ValueError "Matrix must be 8x8") /\
  Encoder.send_frame (Some Sample.open_port) [[1; 0]; [0; 1]]
  = inl (ValueError "Matrix must be 8x8") /\
  Encoder.send_frame (Some Sample.closed_port) [[1; 0]; [0; 1]]
  = inr [st_error "Serial not connected. Please connect in the sidebar."].
Proof.
  destruct (send_frame_rejects_wrong_shape [[1; 0]; [0; 1]] eq_refl)
    as [_ [Henc [Hopen [_ [_ [Hclosed _]]]]]].
  destruct (Henc eq_refl) as [_ Hmsg].
  destruct (Hopen Sample.open_port eq_refl) as [Hsend _].
  split; [exact (Hmsg eq_refl) |].
  split; [rewrite Hsend, (Hmsg eq_refl); reflexivity |].
  exact (Hclosed Sample.closed_port eq_refl).
Defined.

(** C4: encoding a valid 8x8 binary matrix to its 9-byte frame and
    reading bit [7 - c] of row byte [r] back as cell [(r, c)] recovers
    the matrix. *)
Theorem encode_decode_roundtrip (m : list (list Z)) :
  has_dims 8 8 m = true -> binary m = true ->
  exists frame,
    Encoder.encode m = inr frame /\
    length frame = 9%nat /\
    decode_spec frame = m.
Proof.
  intros Hd Hb. pose proof (binary_int_cells m Hb) as Hi.
  exists (0xAA :: map (row_value m) (py_range 0 8)).
  split; [now apply encode_8x8 |].
  split; [reflexivity |].
  rewrite (matrix_is_table 8 8 m Hd) at 2.
  unfold decode_spec. apply table_ext. intros r c Hr Hc.
  rewrite frame_row_byte, row_value_testbit by assumption.
  unfold truthy. now destruct (binary_cell m r c Hb) as [-> | ->].
Qed.

Lemma encode_decode_roundtrip_witness :
  exists frame,
    Encoder.encode Sample.glyph_A = inr frame /\
    decode_spec frame = Sample.glyph_A.
Proof.
  destruct (encode_decode_roundtrip Sample.glyph_A eq_refl eq_refl)
    as [frame [Henc [_ Hdec]]].
  exists frame. now split.
Defined.

(** C10: the frame depends only on which cells are nonzero.  For
    every 8x8 matrix of NumPy integers the 9 bytes produced have bit
    [7 - c] of row byte [r] set exactly when cell [(r, c)] is nonzero,
    whatever its value; they are the bytes produced for the matrix in
    which every nonzero cell is replaced by 1, and [send_frame] behaves
    the same on both. *)
Theorem encode_depends_on_nonzero (m : list (list Z)) :
  has_dims 8 8 m = true -> int_cells m = true ->
  exists frame,
    Encoder.encode m = inr frame /\
    Encoder.encode (binarize m) = inr frame /\
    length frame = 9%nat /\
    nth_error frame 0 = Some 0xAA /\
    (forall r, 0 <= r < 8 -> 0 <= nth (Z.to_nat (r + 1)) frame 0 < 256) /\
    (forall r c, 0 <= r < 8 -> 0 <= c < 8 ->
       Z.testbit (nth (Z.to_nat (r + 1)) frame 0) (7 - c) = true
       <-> cell m r c <> 0) /\
    binary (binarize m) = true /\
    (forall r c, cell (binarize m) r c = 1 <-> cell m r c <> 0) /\
    forall ser, Encoder.send_frame ser m = Encoder.send_frame ser (binarize m).
Proof.
  intros Hd Hi.
  assert (Hbin : binary (binarize m) = true).
  { unfold binary, binarize. rewrite forallb_forall. intros row Hrow.
    apply in_map_iff in Hrow. destruct Hrow as [row0 [<- _]].
    rewrite forallb_forall. intros v Hv.
    apply in_map_iff in Hv. destruct Hv as [v0 [<- _]].
    now destruct (v0 =? 0). }
  assert (Hrows : map (row_value (binarize m)) (py_range 0 8)
                  = map (row_value m) (py_range 0 8)).
  { apply map_ext. intros r. apply row_value_ext. intros c _.
    rewrite binarize_cell. unfold truthy.
    now destruct (cell m r c =? 0). }
  assert (Henc : Encoder.encode (binarize m) = Encoder.encode m).
  { rewrite !encode_8x8
      by (auto using binarize_has_dims, binary_int_cells).
    now rewrite Hrows. }
  exists (0xAA :: map (row_value m) (py_range 0 8)).
  split; [now apply encode_8x8 |].
  split; [rewrite Henc; now apply encode_8x8 |].
  split; [reflexivity |].
  split; [reflexivity |].
  split; [| split; [| split; [exact Hbin | split]]].
  - intros r Hr. rewrite frame_row_byte by assumption. apply row_value_range.
  - intros r c Hr Hc.
    rewrite frame_row_byte, row_value_testbit by assumption.
    unfold truthy. destruct (Z.eqb_spec (cell m r c) 0) as [-> | Hne]; simpl.
    + split; [intros H; discriminate H | intros H; now contradiction H].
    + split; [intros _; exact Hne | reflexivity].
  - intros r c. rewrite binarize_cell.
    destruct (Z.eqb_spec (cell m r c) 0) as [-> | Hne].
    + split; [intros H; discriminate H | intros H; now contradiction H].
    + split; [intros _; exact Hne | reflexivity].
  - intros ser. unfold Encoder.send_frame. now rewrite Henc.
Qed.

Lemma encode_depends_on_nonzero_witness :
  Encoder.encode Sample.glyph_A_levels = Encoder.encode Sample.glyph_A.
Proof.
  destruct (encode_depends_on_nonzero Sample.glyph_A_levels eq_refl eq_refl)
    as [frame [Henc [Hbin _]]].
  rewrite Henc. rewrite <- Hbin. reflexivity.
Defined.

(** ** The downsampler *)

(** The two nested loops store [g r c] in every cell of [out]. *)
Lemma fill_8x8 (g : Z -> Z -> Z) :
  for_each (py_range 0 8)
    (fun r out =>
       for_each (py_range 0 8) (fun c out => setitem out r c (g r c)) out)
    (np_zeros 8 8)
  = inr (mk_ndarray [8; 8] (table 8 8 g)).
Proof. reflexivity. Qed.

Lemma firstn_2_skipn {A} (l : list A) (k : nat) (d : A) :
  (k + 2 <= length l)%nat ->
  firstn 2 (skipn k l) = [nth k l d; nth (S k) l d].
Proof.
  revert l. induction k as [| k IH]; intros l Hk.
  - destruct l as [| x [| y l]]; simpl in Hk; try lia. reflexivity.
  - destruct l as [| x l]; simpl in Hk; [lia |].
    simpl skipn. rewrite (IH l) by lia. reflexivity.
Qed.

(** A slice of two elements inside the list. *)
Lemma slice_pair {A} (l : list A) (lo : Z) (d : A) :
  0 <= lo -> lo + 2 <= Z.of_nat (length l) ->
  slice l lo (lo + 2) = [nth (Z.to_nat lo) l d; nth (Z.to_nat (lo + 1)) l d].
Proof.
  intros Hlo Hhi. unfold slice, slice_bound.
  destruct (Z.ltb_spec lo 0); [lia |].
  destruct (Z.ltb_spec (lo + 2) 0); [lia |].
  rewrite !Z.min_l by lia.
  replace (Z.to_nat (lo + 2 - lo)) with 2%nat by lia.
  replace (Z.to_nat (lo + 1)) with (S (Z.to_nat lo)) by lia.
  apply firstn_2_skipn. lia.
Qed.

(** The 2x2 block of the downsampler holds the four cells it names. *)
Lemma block_cells (mat16 : ndarray Z) (r c : Z) :
  has_dims 16 16 (cells mat16) = true ->
  0 <= r < 8 -> 0 <= c < 8 ->
  cells (getslice mat16 (r * 2) ((r + 1) * 2) (c * 2) ((c + 1) * 2))
  = [ [cell (cells mat16) (2 * r) (2 * c);
       cell (cells mat16) (2 * r) (2 * c + 1)];
      [cell (cells mat16) (2 * r + 1) (2 * c);
       cell (cells mat16) (2 * r + 1) (2 * c + 1)] ].
Proof.
  intros Hd Hr Hc. destruct (has_dims_length _ _ _ Hd) as [Hlen Hrows].
  unfold getslice. cbn [cells].
  replace ((r + 1) * 2) with (r * 2 + 2) by lia.
  replace ((c + 1) * 2) with (c * 2 + 2) by lia.
  rewrite (slice_pair (cells mat16) (r * 2) []) by lia.
  cbn [map].
  assert (Hrow : forall i, (i < 16)%nat ->
            length (nth i (cells mat16) []) = 16%nat)
    by (intros i Hi; apply Hrows, nth_In; lia).
  rewrite !(slice_pair _ (c * 2) 0) by (try rewrite Hrow by lia; lia).
  unfold cell.
  replace (r * 2) with (2 * r) by lia.
  replace (c * 2) with (2 * c) by lia.
  reflexivity.
Qed.

Lemma block_sum_binary (block : ndarray Z) (a b c d : Z) :
  cells block = [[a; b]; [c; d]] ->
  (a = 0 \/ a = 1) -> (b = 0 \/ b = 1) ->
  (c = 0 \/ c = 1) -> (d = 0 \/ d = 1) ->
  np_sum block = a + b + c + d.
Proof.
  intros Hcells. unfold np_sum. rewrite Hcells.
  intros [-> | ->] [-> | ->] [-> | ->] [-> | ->]; reflexivity.
Qed.

(** C3: for every 16x16 binary matrix [downsample_16_to_8] returns an
    8x8 binary matrix whose cell [(r, c)] is 1 exactly when at least one
    of the four cells of the block of lines [2r, 2r+1] and columns
    [2c, 2c+1] is 1 (and is 0 otherwise). *)
Theorem downsample_block_or (mat16 : ndarray Z) :
  has_dims 16 16 (cells mat16) = true -> binary (cells mat16) = true ->
  exists out,
    Downsampler.downsample_16_to_8 mat16 = inr out /\
    shape out = [8; 8] /\
    has_dims 8 8 (cells out) = true /\
    binary (cells out) = true /\
    forall r c, 0 <= r < 8 -> 0 <= c < 8 ->
      getitem out r c = inr (cell (cells out) r c) /\
      (cell (cells out) r c = 1 <->
         cell (cells mat16) (2 * r) (2 * c) = 1 \/
         cell (cells mat16) (2 * r) (2 * c + 1) = 1 \/
         cell (cells mat16) (2 * r + 1) (2 * c) = 1 \/
         cell (cells mat16) (2 * r + 1) (2 * c + 1) = 1).
Proof.
  intros Hd Hb.
  set (g := fun r c =>
         if 0 <? np_sum (getslice mat16 (r * 2) ((r + 1) * 2)
                                        (c * 2) ((c + 1) * 2))
         then 1 else 0).
  exists (mk_ndarray [8; 8] (table 8 8 g)).
  split; [exact (fill_8x8 g) |].
  split; [reflexivity |].
  assert (Hout : has_dims 8 8 (table 8 8 g) = true)
    by exact (table_has_dims 8 8 g).
  split; [exact Hout |].
  split.
  - cbn [cells]. unfold binary, table. rewrite forallb_forall.
    intros row Hrow. apply in_map_iff in Hrow. destruct Hrow as [r [<- _]].
    rewrite forallb_forall. intros v Hv.
    apply in_map_iff in Hv. destruct Hv as [c [<- _]].
    unfold g. now destruct (0 <? _).
  - intros r c Hr Hc. split.
    + apply (getitem_cell _ 8 8); [exact Hout | lia | lia].
    + cbn [cells]. rewrite table_cell by assumption. unfold g.
      pose proof (binary_cell (cells mat16) (2 * r) (2 * c) Hb) as H00.
      pose proof (binary_cell (cells mat16) (2 * r) (2 * c + 1) Hb) as H01.
      pose proof (binary_cell (cells mat16) (2 * r + 1) (2 * c) Hb) as H10.
      pose proof (binary_cell (cells mat16) (2 * r + 1) (2 * c + 1) Hb) as H11.
      rewrite (block_sum_binary _ _ _ _ _ (block_cells mat16 r c Hd Hr Hc))
        by assumption.
      destruct (Z.ltb_spec 0
                  (cell (cells mat16) (2 * r) (2 * c)
                   + cell (cells mat16) (2 * r) (2 * c + 1)
                   + cell (cells mat16) (2 * r + 1) (2 * c)
                   + cell (cells mat16) (2 * r + 1) (2 * c + 1))); lia.
Qed.

Lemma downsample_block_or_witness :
  Downsampler.downsample_16_to_8 Sample.grid16
  = inr (mk_ndarray [8; 8]
           [ [1; 0; 0; 0; 0; 0; 0; 1];
             [0; 1; 0; 0; 0; 0; 1; 0];
             [0; 0; 1; 0; 0; 1; 0; 0];
             [0; 0; 0; 1; 1; 0; 0; 0];
             [0; 0; 0; 0; 1; 0; 0; 0];
             [0; 0; 0; 0; 0; 1; 0; 0];
             [0; 0; 0; 0; 0; 0; 1; 0];
             [0; 0; 0; 0; 0; 0; 0; 1] ]).
Proof.
  destruct (downsample_block_or Sample.grid16 eq_refl eq_refl)
    as [out [Hout _]].
  rewrite Hout. vm_compute in Hout. now inversion Hout.
Defined.

(** ** The image rasterizer *)

(** The single-precision test [p / 255.0 < 0.7] on an unsigned byte. *)
Lemma threshold_float32 (p : byte) :
  Float32.ltb
    (Float32.div (Float32.of_Z (intensity p))
       (Float32.of_py_float (Float32.py_float 255 1)))
    (Float32.of_py_float (Float32.py_float 7 10))
  = (intensity p <=? 178).
Proof. destruct p; vm_compute; reflexivity. Qed.

(** The same test on exact rationals. *)
Lemma threshold_rational (p : Z) :
  (inject_Z p / 255 < 7 / 10)%Q <-> p <= 178.
Proof. unfold Qlt, Qdiv, Qmult, Qinv, inject_Z. simpl. lia. Qed.

Lemma image_to_8x8_table (P : Type) (luma : P -> byte)
    (bilinear : image byte -> Z * Z -> Z -> Z -> byte) (img : image P) :
  image_to_8x8 P luma bilinear img
  = mk_ndarray [8; 8]
      (table 8 8
         (fun r c =>
            if intensity (bilinear (convert_L P luma img) (8, 8) c r) <=? 178
            then 1 else 0)).
Proof.
  unfold image_to_8x8, np_map, np_array_image, resize.
  cbn [cells shape width height px fst snd].
  f_equal. rewrite !map_map. unfold table. apply map_ext. intros r.
  rewrite !map_map. apply map_ext. intros c. now rewrite threshold_float32.
Qed.

Lemma nearest_keeps_flat (v : byte) : keeps_flat Sample.nearest v.
Proof.
  intros src size x y [Hw [Hh Hpx]] Hx Hy. unfold Sample.nearest.
  apply Hpx; split.
  - apply Z.div_pos; nia.
  - apply Z.div_lt_upper_bound; nia.
  - apply Z.div_pos; nia.
  - apply Z.div_lt_upper_bound; nia.
Qed.

(** C7: on a grayscale image [image_to_8x8] returns an 8x8 binary
    matrix whose cell [(r, c)] is lit exactly when the intensity of the
    pixel in column [c] of line [r] of the image resized to 8x8, divided
    by 255, is strictly below 0.7 (the program's single-precision test
    and the exact quotient agree on every byte).  With a filter that
    maps a one-colour image to that colour, an all-white image gives the
    all-zero matrix and an all-black image the all-one matrix. *)
Theorem image_to_8x8_threshold
    (bilinear : image byte -> Z * Z -> Z -> Z -> byte) (img : image byte) :
  let small := resize bilinear (convert_L byte (fun b => b) img) (8, 8) in
  let out := image_to_8x8 byte (fun b => b) bilinear img in
  shape out = [8; 8] /\
  has_dims 8 8 (cells out) = true /\
  binary (cells out) = true /\
  (forall r c, 0 <= r < 8 -> 0 <= c < 8 ->
     getitem out r c = inr (cell (cells out) r c) /\
     (cell (cells out) r c = 1
      <-> (inject_Z (intensity (px small c r)) / 255 < 7 / 10)%Q)) /\
  (keeps_flat bilinear xff -> flat img xff ->
     cells out = table 8 8 (fun _ _ => 0)) /\
  (keeps_flat bilinear x00 -> flat img x00 ->
     cells out = table 8 8 (fun _ _ => 1)).
Proof.
  intros small out. subst small out. rewrite image_to_8x8_table.
  cbn [shape cells].
  set (g := fun r c : Z =>
         if intensity (bilinear (convert_L byte (fun b => b) img) (8, 8) c r)
            <=? 178
         then 1 else 0).
  assert (Hout : has_dims 8 8 (table 8 8 g) = true)
    by exact (table_has_dims 8 8 g).
  assert (Hflat : forall v, flat img v ->
            flat (convert_L byte (fun b => b) img) v).
  { intros v [Hw [Hh Hpx]]. repeat split; assumption. }
  split; [reflexivity |].
  split; [exact Hout |].
  split; [| split; [| split]].
  - unfold binary, table. rewrite forallb_forall.
    intros row Hrow. apply in_map_iff in Hrow. destruct Hrow as [r [<- _]].
    rewrite forallb_forall. intros v Hv.
    apply in_map_iff in Hv. destruct Hv as [c [<- _]].
    unfold g. now destruct (_ <=? 178).
  - intros r c Hr Hc. split.
    + apply (getitem_cell (mk_ndarray [8; 8] (table 8 8 g)) 8 8);
        [exact Hout | lia | lia].
    + rewrite table_cell by assumption. rewrite threshold_rational.
      unfold g, resize. cbn [px].
      destruct (Z.leb_spec
                  (intensity (bilinear (convert_L byte (fun b => b) img)
                                (8, 8) c r)) 178);
        split; intros H'; try reflexivity; try lia; discriminate H'.
  - intros Hk Himg. apply table_ext. intros r c Hr Hc. unfold g.
    now rewrite (Hk _ (8, 8) c r (Hflat _ Himg)).
  - intros Hk Himg. apply table_ext. intros r c Hr Hc. unfold g.
    now rewrite (Hk _ (8, 8) c r (Hflat _ Himg)).
Qed.

Lemma image_to_8x8_threshold_witness :
  cells (image_to_8x8 byte (fun b => b) Sample.nearest (Image_new (256, 256) xff))
  = table 8 8 (fun _ _ => 0).
Proof.
  destruct (image_to_8x8_threshold Sample.nearest (Image_new (256, 256) xff))
    as [_ [_ [_ [_ [Hwhite _]]]]].
  apply Hwhite.
  - exact (nearest_keeps_flat xff).
  - repeat split.
Defined.

(** ** The text rasterizer *)

Lemma windows_map (img : image byte) (h : Z) :
  windows img h = map (window_frame img h) (py_range 0 (width img - 8 + 1)).
Proof. unfold windows. now rewrite fold_left_snoc. Qed.

Lemma windows_length (img : image byte) (h : Z) :
  length (windows img h) = Z.to_nat (width img - 7).
Proof.
  rewrite windows_map, length_map, py_range_length. f_equal. lia.
Qed.

Lemma windows_nth_error (img : image byte) (h x : Z) :
  0 <= x <= width img - 8 ->
  nth_error (windows img h) (Z.to_nat x) = Some (window_frame img h x).
Proof.
  intros Hx. rewrite windows_map, nth_error_map, py_range_nth_error by lia.
  simpl. do 2 f_equal. lia.
Qed.

Lemma window_frame_shape (img : image byte) (h x : Z) :
  shape (window_frame img h x) = [h; 8].
Proof.
  unfold window_frame, np_map, np_array_image, crop. cbn [shape height width].
  f_equal; [lia | f_equal; lia].
Qed.

Lemma window_frame_cells (img : image byte) (h x : Z) :
  cells (window_frame img h x)
  = table h 8
      (fun r c =>
         if 128 <? intensity (px (crop img (x, 0, x + 8, h)) c r)
         then 1 else 0).
Proof.
  unfold window_frame, np_map, np_array_image, crop.
  cbn [cells height width px].
  replace (x + 8 - x) with 8 by lia. rewrite Z.sub_0_r.
  unfold table. rewrite !map_map. apply map_ext. intros r.
  rewrite !map_map. reflexivity.
Qed.

(** Inside the strip a window shows the pixels of the strip. *)
Lemma crop_px_inside (img : image byte) (h x r c : Z) :
  0 <= x -> x + 8 <= width img -> h <= height img ->
  0 <= r < h -> 0 <= c < 8 ->
  px (crop img (x, 0, x + 8, h)) c r = px img (x + c) r.
Proof.
  intros Hx Hw Hh Hr Hc. unfold crop. cbn [px]. rewrite Z.add_0_l.
  destruct (Z.leb_spec 0 (x + c)); [| lia].
  destruct (Z.ltb_spec (x + c) (width img)); [| lia].
  destruct (Z.leb_spec 0 r); [| lia].
  destruct (Z.ltb_spec r (height img)); [| lia].
  reflexivity.
Qed.

Lemma py_last_app {A} (l : list A) (x : A) : py_last (l ++ [x]) = Some x.
Proof.
  unfold py_last. rewrite length_app, Nat.add_sub. cbn [length].
  rewrite nth_error_app2 by lia. now rewrite Nat.sub_diag.
Qed.

Lemma py_last_nonempty {A} (l : list A) :
  l <> [] -> exists x, py_last l = Some x.
Proof.
  intros Hl. destruct (exists_last Hl) as [l' [x ->]].
  exists x. apply py_last_app.
Qed.

Lemma with_pause_nonempty (frames : list (ndarray Z)) (last : ndarray Z) :
  py_last frames = Some last -> with_pause frames = frames ++ [last].
Proof.
  intros Hlast. unfold with_pause. destruct frames as [| f fs].
  - discriminate Hlast.
  - now rewrite Hlast.
Qed.

Section TextProperties.

Variable bilinear : image byte -> Z * Z -> Z -> Z -> byte.
Variable textbbox : string -> Z * Z * Z * Z.
Variable text_ink : image byte -> Z * Z -> string -> byte -> Z -> Z -> byte.

#[local] Abbreviation strip := (scaled_strip bilinear textbbox text_ink).
#[local] Abbreviation frames_of := (text_to_frames bilinear textbbox text_ink).

Lemma strip_size (text : string) (h b0 b1 b2 b3 : Z) :
  textbbox text = (b0, b1, b2, b3) ->
  width (strip text h) = b2 - b0 + 8 /\ height (strip text h) = h.
Proof.
  intros Hbox. unfold scaled_strip. rewrite Hbox. split; reflexivity.
Qed.

Lemma strip_height (text : string) (h : Z) : height (strip text h) = h.
Proof.
  destruct (textbbox text) as [[[b0 b1] b2] b3] eqn:Hbox.
  exact (proj2 (strip_size text h b0 b1 b2 b3 Hbox)).
Qed.

Lemma frames_of_nonempty_text (text : string) (h : Z) :
  text <> EmptyString ->
  frames_of text h = with_pause (windows (strip text h) h).
Proof.
  intros Ht. destruct text as [| a text']; [contradiction | reflexivity].
Qed.

(** C8: the empty string gives no frame. *)
Theorem text_to_frames_empty (h : Z) :
  text_to_frames bilinear textbbox text_ink EmptyString h = [].
Proof. reflexivity. Qed.

(** C5: for a non-empty text whose scaled strip is at least 8 pixels
    wide, the windowing step yields exactly [strip_width - 7] frames,
    one for each position [x] from 0 to [strip_width - 8] in this order;
    the frame at [x] is 8x8 and its cell [(r, c)] is lit exactly when
    the pixel of the strip in column [x + c] of line [r] has an
    intensity above 128.  These frames are the result of
    [text_to_frames] before the pause frame. *)
Theorem windows_slide (text : string) :
  text <> EmptyString ->
  8 <= width (strip text 8) ->
  let frames := windows (strip text 8) 8 in
  Z.of_nat (length frames) = width (strip text 8) - 7 /\
  (forall x, 0 <= x <= width (strip text 8) - 8 ->
     exists f,
       nth_error frames (Z.to_nat x) = Some f /\
       shape f = [8; 8] /\
       has_dims 8 8 (cells f) = true /\
       forall r c, 0 <= r < 8 -> 0 <= c < 8 ->
         getitem f r c = inr (cell (cells f) r c) /\
         cell (cells f) r c
         = (if 128 <? intensity (px (strip text 8) (x + c) r) then 1 else 0)) /\
  frames_of text 8 = with_pause frames /\
  firstn (length frames) (frames_of text 8) = frames.
Proof.
  intros Ht Hw frames. subst frames.
  split; [rewrite windows_length; lia |].
  split; [| split].
  - intros x Hx. exists (window_frame (strip text 8) 8 x).
    assert (Hdims : has_dims 8 8 (cells (window_frame (strip text 8) 8 x)) = true)
      by (rewrite window_frame_cells; exact (table_has_dims 8 8 _)).
    split; [now apply windows_nth_error |].
    split; [apply window_frame_shape |].
    split; [exact Hdims |].
    intros r c Hr Hc. split.
    + apply (getitem_cell _ 8 8); [exact Hdims | lia | lia].
    + rewrite window_frame_cells, table_cell by assumption.
      rewrite crop_px_inside; try lia. rewrite strip_height. lia.
  - now apply frames_of_nonempty_text.
  - rewrite frames_of_nonempty_text by assumption.
    destruct (py_last_nonempty (windows (strip text 8) 8)) as [last Hlast].
    + intros Hnil. apply (f_equal (@length _)) in Hnil.
      rewrite windows_length in Hnil. simpl in Hnil. lia.
    + rewrite (with_pause_nonempty _ _ Hlast).
      rewrite firstn_app, Nat.sub_diag, firstn_all. cbn [firstn].
      apply app_nil_r.
Qed.

(** C6: when the windowing step produced at least one frame for a
    text, exactly one more frame is appended, equal to the last windowed
    frame: the result is not empty and its last two frames are equal. *)
Theorem pause_frame (text : string) (h : Z) :
  text <> EmptyString ->
  windows (strip text h) h <> [] ->
  exists last,
    py_last (windows (strip text h) h) = Some last /\
    frames_of text h = windows (strip text h) h ++ [last] /\
    length (frames_of text h) = S (length (windows (strip text h) h)) /\
    frames_of text h <> [] /\
    nth_error (frames_of text h) (length (frames_of text h) - 1) = Some last /\
    nth_error (frames_of text h) (length (frames_of text h) - 2) = Some last.
Proof.
  intros Ht Hne.
  destruct (py_last_nonempty _ Hne) as [last Hlast]. exists last.
  assert (Hres : frames_of text h = windows (strip text h) h ++ [last]).
  { rewrite frames_of_nonempty_text by assumption.
    now apply with_pause_nonempty. }
  assert (Hlen : length (frames_of text h)
                 = S (length (windows (strip text h) h))).
  { rewrite Hres, length_app. cbn [length]. lia. }
  split; [exact Hlast |].
  split; [exact Hres |].
  split; [exact Hlen |].
  split; [| split].
  - intros Hnil. rewrite Hnil in Hlen. discriminate Hlen.
  - rewrite Hlen, Hres. rewrite nth_error_app2 by lia.
    replace (S (length (windows (strip text h) h)) - 1
             - length (windows (strip text h) h))%nat with 0%nat by lia.
    reflexivity.
  - rewrite Hlen, Hres.
    assert (Hpos : (0 < length (windows (strip text h) h))%nat).
    { destruct (windows (strip text h) h); [contradiction | simpl; lia]. }
    rewrite nth_error_app1 by lia.
    unfold py_last in Hlast. rewrite <- Hlast. reflexivity.
Qed.

(** C9: for a non-empty text whose measured bounding box has a
    non-negative width [w], the strip is [w + 8 >= 8] pixels wide, the
    windowing loop yields [w + 1] frames, the first at [x = 0], and with
    the pause frame [text_to_frames] returns [w + 2 >= 2] frames. *)
Theorem text_to_frames_at_least_two (text : string) (h b0 b1 b2 b3 : Z) :
  text <> EmptyString ->
  textbbox text = (b0, b1, b2, b3) ->
  0 <= b2 - b0 ->
  width (strip text h) = b2 - b0 + 8 /\
  8 <= width (strip text h) /\
  nth_error (windows (strip text h) h) 0
  = Some (window_frame (strip text h) h 0) /\
  Z.of_nat (length (windows (strip text h) h)) = b2 - b0 + 1 /\
  Z.of_nat (length (frames_of text h)) = b2 - b0 + 2 /\
  (2 <= length (frames_of text h))%nat /\
  frames_of text h <> [].
Proof.
  intros Ht Hbox Hw.
  destruct (strip_size text h b0 b1 b2 b3 Hbox) as [Hwidth _].
  assert (Hwin : Z.of_nat (length (windows (strip text h) h)) = b2 - b0 + 1)
    by (rewrite windows_length; lia).
  assert (Hne : windows (strip text h) h <> []).
  { intros Hnil. rewrite Hnil in Hwin. simpl in Hwin. lia. }
  destruct (py_last_nonempty _ Hne) as [last Hlast].
  assert (Hres : frames_of text h = windows (strip text h) h ++ [last]).
  { rewrite frames_of_nonempty_text by assumption.
    now apply with_pause_nonempty. }
  assert (Hlen : Z.of_nat (length (frames_of text h)) = b2 - b0 + 2).
  { rewrite Hres, length_app. cbn [length]. lia. }
  split; [exact Hwidth |].
  split; [lia |].
  split; [apply (windows_nth_error _ h 0); lia |].
  split; [exact Hwin |].
  split; [exact Hlen |].
  split; [lia |].
  intros Hnil. rewrite Hnil in Hlen. simpl in Hlen. lia.
Qed.

End TextProperties.

(** Worked examples with the stand-ins of [Sample]: the one-letter text
    "A" is 6 pixels wide, its strip 14, which gives 7 windows and the
    pause frame. *)

Lemma windows_slide_witness :
  Z.of_nat
    (length
       (windows (scaled_strip Sample.nearest Sample.bbox Sample.ink "A" 8) 8))
  = 7.
Proof.
  assert (Htext : "A"%string <> EmptyString) by discriminate.
  assert (Hwide :
            8 <= width (scaled_strip Sample.nearest Sample.bbox Sample.ink "A" 8))
    by (vm_compute; discriminate).
  destruct (windows_slide Sample.nearest Sample.bbox Sample.ink "A" Htext Hwide)
    as [Hlen _].
  rewrite Hlen. reflexivity.
Defined.

Lemma pause_frame_witness :
  exists last,
    text_to_frames Sample.nearest Sample.bbox Sample.ink "A" 8
    = windows (scaled_strip Sample.nearest Sample.bbox Sample.ink "A" 8) 8
      ++ [last].
Proof.
  assert (Htext : "A"%string <> EmptyString) by discriminate.
  assert (Hne :
            windows (scaled_strip Sample.nearest Sample.bbox Sample.ink "A" 8) 8
            <> [])
    by (vm_compute; discriminate).
  destruct (pause_frame Sample.nearest Sample.bbox Sample.ink "A" 8 Htext Hne)
    as [last [_ [Hres _]]].
  exists last. exact Hres.
Defined.

Lemma text_to_frames_at_least_two_witness :
  (2 <= length (text_to_frames Sample.nearest Sample.bbox Sample.ink "A" 8))%nat.
Proof.
  assert (Htext : "A"%string <> EmptyString) by discriminate.
  assert (Hw : 0 <= 6 - 0) by lia.
  destruct (text_to_frames_at_least_two
              Sample.nearest Sample.bbox Sample.ink "A" 8 0 2 6 11
              Htext eq_refl Hw)
    as [_ [_ [_ [_ [_ [Hlen _]]]]]].
  exact Hlen.
Defined.

(** * Further properties of the code *)

(** ** The encoder as a function of the rows *)

Lemma rows_of_matrix {A} (rows cols : nat) (m : list (list A)) :
  has_dims rows cols m = true ->
  m = map (fun r => nth (Z.to_nat r) m []) (py_range 0 (Z.of_nat rows)).
Proof.
  intros Hd. destruct (has_dims_length _ _ _ Hd) as [Hlen _].
  apply (nth_ext _ _ [] []).
  - rewrite length_map, py_range_length. lia.
  - intros i Hi.
    replace i with (Z.to_nat (Z.of_nat i)) at 2 by lia.
    rewrite (py_range_map_nth _ (Z.of_nat rows)) by lia.
    now rewrite Nat2Z.id.
Qed.

Lemma row_value_number (m : list (list Z)) (r : Z) :
  length (nth (Z.to_nat r) m []) = 8%nat ->
  row_value m r = row_number (nth (Z.to_nat r) m []).
Proof.
  intros Hlen. unfold row_value, row_step, cell.
  destruct (nth (Z.to_nat r) m []) as [| a0 [| a1 [| a2 [| a3 [| a4 [| a5
    [| a6 [| a7 [| a8 row]]]]]]]]]; try discriminate Hlen.
  unfold row_number, truthy.
  change (py_range 0 8) with [0; 1; 2; 3; 4; 5; 6; 7].
  cbn [fold_left].
  repeat match goal with
         | |- context [Z.to_nat ?k] =>
             let n := eval vm_compute in (Z.to_nat k) in
             change (Z.to_nat k) with n
         end.
  cbn [nth].
  destruct (a0 =? 0), (a1 =? 0), (a2 =? 0), (a3 =? 0),
           (a4 =? 0), (a5 =? 0), (a6 =? 0), (a7 =? 0); reflexivity.
Qed.

Lemma row_values_numbers (m : list (list Z)) :
  has_dims 8 8 m = true ->
  map (row_value m) (py_range 0 8) = map row_number m.
Proof.
  intros Hd. destruct (has_dims_length _ _ _ Hd) as [Hlen Hrows].
  rewrite (rows_of_matrix 8 8 m Hd) at 2. rewrite map_map.
  apply map_ext_in. intros r Hr. apply py_range_In in Hr.
  apply row_value_number. apply Hrows, nth_In. lia.
Qed.

(** Every way lines 30-44 can end. *)
Lemma encode_cases (m : list (list Z)) :
  (has_dims 8 8 m = true /\ int_cells m = true /\
   Encoder.encode m = inr (0xAA :: map row_number m)) \/
  (has_dims 8 8 m = false /\ rectangular m = false /\
   Encoder.encode m
   = inl (ValueError "setting an array element with a sequence")) \/
  (rectangular m = true /\ int_cells m = false /\
   Encoder.encode m
   = inl (OverflowError "Python int too large to convert to C long")) \/
  (has_dims 8 8 m = false /\ rectangular m = true /\ int_cells m = true /\
   Encoder.encode m = inl (ValueError "Matrix must be 8x8")).
Proof.
  destruct (rectangular m) eqn:Hrect.
  - destruct (int_cells m) eqn:Hi.
    + destruct (has_dims 8 8 m) eqn:Hd.
      * left. rewrite encode_8x8, row_values_numbers by assumption. auto.
      * right. right. right. auto using encode_wrong_shape.
    + right. right. left. auto using encode_overflow.
  - right. left. split; [| auto using encode_ragged].
    destruct (has_dims 8 8 m) eqn:Hd; [| reflexivity].
    rewrite (has_dims_rectangular _ _ _ Hd) in Hrect. discriminate Hrect.
Qed.

(** X1: the frame of an 8x8 matrix of NumPy integers is the header
    followed by its rows, each read as a binary number with the
    leftmost cell as the most significant bit; an 8x8 list of rows with
    an integer that does not fit a NumPy integer gives no frame but an
    [OverflowError]. *)
Theorem encode_rows_as_numbers (m : list (list Z)) :
  has_dims 8 8 m = true ->
  (int_cells m = true ->
   Encoder.encode m = inr (0xAA :: map row_number m)) /\
  (int_cells m = false ->
   Encoder.encode m
   = inl (OverflowError "Python int too large to convert to C long")).
Proof.
  intros Hd. split; intros Hi.
  - rewrite encode_8x8 by assumption. do 2 f_equal.
    now apply row_values_numbers.
  - apply encode_overflow; [| exact Hi].
    exact (has_dims_rectangular 8 8 m Hd).
Qed.

Lemma encode_rows_as_numbers_witness :
  Encoder.encode Sample.glyph_A
  = inr [0xAA; 0x18; 0x24; 0x42; 0x42; 0x7E; 0x42; 0x42; 0x00]
  /\ Encoder.encode Sample.glyph_A_huge
     = inl (OverflowError "Python int too large to convert to C long").
Proof.
  split.
  - exact (proj1 (encode_rows_as_numbers Sample.glyph_A eq_refl) eq_refl).
  - exact (proj2 (encode_rows_as_numbers Sample.glyph_A_huge eq_refl) eq_refl).
Defined.

Lemma encode_binarize (m : list (list Z)) :
  has_dims 8 8 m = true -> int_cells m = true ->
  Encoder.encode (binarize m) = Encoder.encode m.
Proof.
  intros Hd Hi.
  assert (Hb : int_cells (binarize m) = true).
  { apply binary_int_cells. unfold binary, binarize.
    rewrite forallb_forall. intros row Hrow.
    apply in_map_iff in Hrow. destruct Hrow as [row0 [<- _]].
    rewrite forallb_forall. intros v Hv.
    apply in_map_iff in Hv. destruct Hv as [v0 [<- _]].
    now destruct (v0 =? 0). }
  rewrite !encode_8x8 by (auto using binarize_has_dims).
  do 2 f_equal. apply map_ext. intros r. apply row_value_ext. intros c _.
  rewrite binarize_cell. unfold truthy. now destruct (cell m r c =? 0).
Qed.

Lemma decode_frame_value (m : list (list Z)) :
  decode_spec (0xAA :: map (row_value m) (py_range 0 8))
  = table 8 8 (fun r c => if truthy (cell m r c) then 1 else 0).
Proof.
  unfold decode_spec. apply table_ext. intros r c Hr Hc.
  now rewrite frame_row_byte, row_value_testbit by assumption.
Qed.

Lemma binarize_table (m : list (list Z)) :
  has_dims 8 8 m = true ->
  binarize m = table 8 8 (fun r c => if truthy (cell m r c) then 1 else 0).
Proof.
  intros Hd.
  rewrite (matrix_is_table 8 8 (binarize m) (binarize_has_dims 8 8 m Hd)).
  apply table_ext. intros r c _ _. rewrite binarize_cell.
  unfold truthy. now destruct (cell m r c =? 0).
Qed.

(** X2: two 8x8 matrices of NumPy integers are encoded to the same
    frame exactly when they have the same nonzero cells; in particular
    two different 0/1 pictures never share a frame. *)
Theorem encode_equal_iff_same_lit_cells (m m' : list (list Z)) :
  has_dims 8 8 m = true -> int_cells m = true ->
  has_dims 8 8 m' = true -> int_cells m' = true ->
  (Encoder.encode m = Encoder.encode m' <-> binarize m = binarize m').
Proof.
  intros Hd Hi Hd' Hi'. split.
  - rewrite !encode_8x8 by assumption. intros Heq.
    assert (Hrows : map (row_value m) (py_range 0 8)
                    = map (row_value m') (py_range 0 8))
      by exact (f_equal (fun x : result bytearray =>
                           match x with inr l => tl l | inl _ => [] end) Heq).
    rewrite (binarize_table m Hd), (binarize_table m' Hd').
    rewrite <- (decode_frame_value m), <- (decode_frame_value m').
    now rewrite Hrows.
  - intros Heq.
    rewrite <- (encode_binarize m Hd Hi), <- (encode_binarize m' Hd' Hi').
    now rewrite Heq.
Qed.

Lemma encode_equal_iff_same_lit_cells_witness :
  Encoder.encode Sample.glyph_A_levels = Encoder.encode Sample.glyph_A.
Proof.
  apply (encode_equal_iff_same_lit_cells
           Sample.glyph_A_levels Sample.glyph_A
           eq_refl eq_refl eq_refl eq_refl).
  reflexivity.
Defined.

(** X3: [send_frame] raises exactly when the port is open and the
    matrix is not an 8x8 matrix of NumPy integers.  What it raises is
    an [OverflowError] when the rows have equal lengths and an integer
    does not fit, and a [ValueError] otherwise.  A write that fails on
    the port is reported and never raised. *)
Theorem send_frame_raises_iff (ser : option Serial) (m : list (list Z)) :
  ((exists e, Encoder.send_frame ser m = inl e)
   <-> (exists s, ser = Some s /\ is_open s = true)
       /\ (has_dims 8 8 m = false \/ int_cells m = false))
  /\ (forall e, Encoder.send_frame ser m = inl e ->
        if rectangular m && negb (int_cells m)
        then exists msg, e = OverflowError msg
        else exists msg, e = ValueError msg)
  /\ (forall s e, ser = Some s -> is_open s = true ->
        has_dims 8 8 m = true -> int_cells m = true ->
        write_error s (0xAA :: map row_number m) = Some e ->
        Encoder.send_frame ser m
        = inr [ser_write (0xAA :: map row_number m);
               st_error ("Error writing to serial: " ++ e)%string]).
Proof.
  unfold Encoder.send_frame.
  destruct ser as [s |]; [destruct (is_open s) eqn:Hopen |]; cbn [negb].
  - destruct (encode_cases m)
      as [[Hd [Hi He]] | [[Hd [Hr He]] | [[Hr [Hi He]] | [Hd [Hr [Hi He]]]]]];
      rewrite He, ?Hr, ?Hi; cbn [bind andb negb].
    + split; [| split].
      * split.
        -- intros [e H]. destruct (write_error s _); discriminate H.
        -- intros [_ [H | H]]; congruence.
      * intros e H. destruct (write_error s _); discriminate H.
      * intros s' e Hs _ _ _ Hw. inversion Hs; subst s'. now rewrite Hw.
    + split; [| split].
      * split; [| intros _; eexists; reflexivity].
        intros _. split; [now exists s | now left].
      * intros e H. inversion H. eexists; reflexivity.
      * intros s' e _ _ H. congruence.
    + split; [| split].
      * split; [| intros _; eexists; reflexivity].
        intros _. split; [now exists s | now right].
      * intros e H. inversion H. eexists; reflexivity.
      * intros s' e _ _ _ H. congruence.
    + split; [| split].
      * split; [| intros _; eexists; reflexivity].
        intros _. split; [now exists s | now left].
      * intros e H. inversion H. eexists; reflexivity.
      * intros s' e _ _ H. congruence.
  - split; [| split].
    + split; [intros [e He]; discriminate He |].
      intros [[s' [Hs Ho]] _]. inversion Hs; subst s'. congruence.
    + intros e He. discriminate He.
    + intros s' e Hs Ho. inversion Hs; subst s'. congruence.
  - split; [| split].
    + split; [intros [e He]; discriminate He |].
      intros [[s' [Hs _]] _]. discriminate Hs.
    + intros e He. discriminate He.
    + intros s' e Hs. discriminate Hs.
Qed.

Lemma send_frame_raises_iff_witness :
  Encoder.send_frame (Some Sample.broken_port) Sample.glyph_A
  = inr [ser_write [0xAA; 0x18; 0x24; 0x42; 0x42; 0x7E; 0x42; 0x42; 0x00];
         st_error "Error writing to serial: write timeout"]
  /\ exists msg,
       Encoder.send_frame (Some Sample.open_port) Sample.glyph_A_huge
       = inl (OverflowError msg).
Proof.
  split.
  - destruct (send_frame_raises_iff (Some Sample.broken_port) Sample.glyph_A)
      as [_ [_ Hfail]].
    exact (Hfail Sample.broken_port "write timeout"%string
             eq_refl eq_refl eq_refl eq_refl eq_refl).
  - destruct (send_frame_raises_iff (Some Sample.open_port) Sample.glyph_A_huge)
      as [Hiff [Hkind _]].
    destruct (proj2 Hiff) as [e He].
    + split; [now exists Sample.open_port | now right].
    + destruct (Hkind e He) as [msg ->]. now exists msg.
Defined.

(** ** The frames of a text and their way to the port *)

Lemma window_frame_dims (img : image byte) (h x : Z) :
  has_dims (Z.to_nat h) 8 (cells (window_frame img h x)) = true.
Proof. rewrite window_frame_cells. exact (table_has_dims h 8 _). Qed.

Lemma window_frame_binary (img : image byte) (h x : Z) :
  binary (cells (window_frame img h x)) = true.
Proof.
  rewrite window_frame_cells. unfold binary, table. rewrite forallb_forall.
  intros row Hrow. apply in_map_iff in Hrow. destruct Hrow as [r [<- _]].
  rewrite forallb_forall. intros v Hv.
  apply in_map_iff in Hv. destruct Hv as [c [<- _]].
  now destruct (128 <? _).
Qed.

Lemma with_pause_In (frames : list (ndarray Z)) (f : ndarray Z) :
  In f (with_pause frames) -> In f frames.
Proof.
  unfold with_pause. destruct frames as [| f0 fs]; [easy |].
  destruct (py_last (f0 :: fs)) as [last |] eqn:Hlast; [| easy].
  intros Hin. apply in_app_or in Hin. destruct Hin as [Hin | [<- | []]].
  - exact Hin.
  - unfold py_last in Hlast. eapply nth_error_In. exact Hlast.
Qed.

Lemma send_frame_sent (ser : option Serial) (frame : ndarray Z) :
  has_dims 8 8 (cells frame) = true -> binary (cells frame) = true ->
  Encoder.send_frame ser (cells frame) = inr (sent ser frame).
Proof.
  intros Hd Hb. unfold Encoder.send_frame, sent.
  destruct ser as [s |]; [| reflexivity].
  destruct (is_open s); [| reflexivity]. cbn [negb].
  rewrite encode_8x8, row_values_numbers
    by (auto using binary_int_cells).
  cbn [bind]. now destruct (write_error s _).
Qed.

Lemma send_frames_sent (ser : option Serial) (frames : list (ndarray Z))
    (log : list event) :
  (forall f, In f frames ->
     has_dims 8 8 (cells f) = true /\ binary (cells f) = true) ->
  for_each frames
    (fun frame log =>
       log' <- Encoder.send_frame ser (cells frame) ;; ret (log ++ log'))
    log
  = inr (log ++ flat_map (sent ser) frames).
Proof.
  revert log. induction frames as [| f frames IH]; intros log Hd.
  - cbn [for_each flat_map]. now rewrite app_nil_r.
  - cbn [for_each flat_map].
    rewrite send_frame_sent by (apply Hd; now left).
    cbn [bind]. unfold ret at 1. cbn [bind].
    rewrite IH by (intros f' Hf'; apply Hd; now right).
    now rewrite app_assoc.
Qed.

Lemma writes_sent_open (s : Serial) (frames : list (ndarray Z)) :
  is_open s = true ->
  writes (flat_map (sent (Some s)) frames)
  = map (fun f => 0xAA :: map row_number (cells f)) frames.
Proof.
  intros Ho. induction frames as [| f frames IH]; [reflexivity |].
  cbn [flat_map map]. unfold writes in IH |- *. rewrite flat_map_app, IH.
  unfold sent at 1. rewrite Ho. now destruct (write_error s _).
Qed.

Lemma writes_sent_closed (ser : option Serial) (frames : list (ndarray Z)) :
  (forall s, ser = Some s -> is_open s = false) ->
  writes (flat_map (sent ser) frames) = [].
Proof.
  intros Hc. induction frames as [| f frames IH]; [reflexivity |].
  cbn [flat_map]. unfold writes in IH |- *. rewrite flat_map_app, IH.
  unfold sent. destruct ser as [s |]; [| reflexivity].
  now rewrite (Hc s eq_refl).
Qed.

Section TextFurther.

Variable bilinear : image byte -> Z * Z -> Z -> Z -> byte.
Variable textbbox : string -> Z * Z * Z * Z.
Variable text_ink : image byte -> Z * Z -> string -> byte -> Z -> Z -> byte.

#[local] Abbreviation strip := (scaled_strip bilinear textbbox text_ink).
#[local] Abbreviation frames_of := (text_to_frames bilinear textbbox text_ink).

Lemma frames_of_In (text : string) (h : Z) (f : ndarray Z) :
  In f (frames_of text h) ->
  exists x, 0 <= x <= width (strip text h) - 8
            /\ f = window_frame (strip text h) h x.
Proof.
  destruct text as [| a text']; [intros [] |].
  unfold text_to_frames. intros Hin. apply with_pause_In in Hin.
  rewrite windows_map in Hin. apply in_map_iff in Hin.
  destruct Hin as [x [<- Hx]]. apply py_range_In in Hx.
  exists x. split; [lia | reflexivity].
Qed.

Lemma frames_of_nth_error (text : string) (h x : Z) :
  text <> EmptyString ->
  0 <= x <= width (strip text h) - 8 ->
  nth_error (frames_of text h) (Z.to_nat x)
  = Some (window_frame (strip text h) h x).
Proof.
  intros Ht Hx.
  rewrite (frames_of_nonempty_text bilinear textbbox text_ink) by assumption.
  destruct (py_last_nonempty (windows (strip text h) h)) as [last Hlast].
  - intros Hnil. apply (f_equal (@length _)) in Hnil.
    rewrite windows_length in Hnil. simpl in Hnil. lia.
  - rewrite (with_pause_nonempty _ _ Hlast).
    rewrite nth_error_app1 by (rewrite windows_length; lia).
    now apply windows_nth_error.
Qed.

(** X4: every frame [text_to_frames] returns, the pause frame
    included, has [height] rows of 8 cells, all 0 or 1. *)
Theorem text_frames_well_formed (text : string) (h : Z) (f : ndarray Z) :
  In f (text_to_frames bilinear textbbox text_ink text h) ->
  shape f = [h; 8] /\
  has_dims (Z.to_nat h) 8 (cells f) = true /\
  binary (cells f) = true.
Proof.
  intros Hin. destruct (frames_of_In text h f Hin) as [x [_ ->]].
  split; [apply window_frame_shape |].
  split; [apply window_frame_dims | apply window_frame_binary].
Qed.

(** X5: scrolling.  Each windowed frame is the previous one moved one
    column to the left: column [c] of frame [x + 1] is column [c + 1]
    of frame [x]. *)
Theorem text_frames_scroll (text : string) (x : Z) :
  text <> EmptyString ->
  0 <= x -> x + 9 <= width (strip text 8) ->
  exists f g,
    nth_error (text_to_frames bilinear textbbox text_ink text 8) (Z.to_nat x)
    = Some f /\
    nth_error (text_to_frames bilinear textbbox text_ink text 8)
      (Z.to_nat (x + 1))
    = Some g /\
    forall r c, 0 <= r < 8 -> 0 <= c < 7 ->
      cell (cells g) r c = cell (cells f) r (c + 1).
Proof.
  intros Ht Hx Hw.
  exists (window_frame (strip text 8) 8 x),
         (window_frame (strip text 8) 8 (x + 1)).
  split; [apply frames_of_nth_error; [assumption | lia] |].
  split; [apply frames_of_nth_error; [assumption | lia] |].
  intros r c Hr Hc.
  pose proof (strip_height bilinear textbbox text_ink text 8) as Hh.
  rewrite !window_frame_cells, !table_cell by lia.
  rewrite !crop_px_inside by lia.
  now replace (x + 1 + c) with (x + (c + 1)) by lia.
Qed.

(** X6: the Send Text loop.  For every text, sending its frames never
    raises; on an open port each frame is handed to [ser.write] once,
    in order, as its 9-byte encoding, also when writes fail; without
    an open port nothing is written. *)
Theorem send_text_frames (text : string) (ser : option Serial) :
  exists log,
    App.send_frames ser (text_to_frames bilinear textbbox text_ink text 8)
    = inr log /\
    (forall s, ser = Some s -> is_open s = true ->
       writes log
       = map (fun f => 0xAA :: map row_number (cells f))
             (text_to_frames bilinear textbbox text_ink text 8)) /\
    ((forall s, ser = Some s -> is_open s = false) -> writes log = []).
Proof.
  exists (flat_map (sent ser) (frames_of text 8)).
  split; [| split].
  - unfold App.send_frames. rewrite send_frames_sent; [reflexivity |].
    intros f Hf. destruct (frames_of_In text 8 f Hf) as [x [_ ->]].
    split; [exact (window_frame_dims _ 8 x) | apply window_frame_binary].
  - intros s -> Ho. now apply writes_sent_open.
  - intros Hc. now apply writes_sent_closed.
Qed.

(** X7: a strip narrower than 8 pixels gives no frame at all: the
    windowing loop does not run and no pause frame is added. *)
Theorem narrow_strip_no_frames (img : image byte) (h : Z) :
  width img < 8 ->
  windows img h = [] /\
  with_pause (windows img h) = [] /\
  forall text, strip text h = img ->
    text_to_frames bilinear textbbox text_ink text h = [].
Proof.
  intros Hw.
  assert (Hnil : windows img h = []).
  { unfold windows, py_range.
    replace (Z.to_nat (width img - 8 + 1 - 0)) with 0%nat by lia.
    reflexivity. }
  split; [exact Hnil |]. split; [now rewrite Hnil |].
  intros text Hstrip. destruct text as [| a text']; [reflexivity |].
  unfold text_to_frames. rewrite Hstrip. now rewrite Hnil.
Qed.

(** X8: frames rendered at a height other than 8 are refused by
    [send_frame].  On an open port the list of frames is not empty and
    its first frame already raises "Matrix must be 8x8" in lines 30-32,
    before [ser.write] is reached, so the loop stops with nothing
    written; every other frame would be refused in the same way. *)
Theorem send_frames_other_height (text : string) (h : Z) (s : Serial) :
  text <> EmptyString -> 8 <= width (strip text h) ->
  0 < h -> h <> 8 -> is_open s = true ->
  exists first rest,
    text_to_frames bilinear textbbox text_ink text h = first :: rest /\
    Encoder.encode (cells first) = inl (ValueError "Matrix must be 8x8") /\
    Encoder.send_frame (Some s) (cells first)
    = inl (ValueError "Matrix must be 8x8") /\
    (forall f, In f (first :: rest) ->
       Encoder.send_frame (Some s) (cells f)
       = inl (ValueError "Matrix must be 8x8")) /\
    App.send_frames (Some s) (text_to_frames bilinear textbbox text_ink text h)
    = inl (ValueError "Matrix must be 8x8").
Proof.
  intros Ht Hw Hh Hne Ho.
  assert (Hrefused : forall f, In f (frames_of text h) ->
            Encoder.encode (cells f) = inl (ValueError "Matrix must be 8x8")).
  { intros f Hf. destruct (frames_of_In text h f Hf) as [x [_ ->]].
    pose proof (window_frame_dims (strip text h) h x) as Hd.
    apply encode_wrong_shape.
    - exact (has_dims_rectangular (Z.to_nat h) 8 _ Hd).
    - apply binary_int_cells, window_frame_binary.
    - destruct (has_dims_length _ _ _ Hd) as [Hlen _].
      unfold has_dims. rewrite Hlen.
      destruct (Nat.eqb_spec (Z.to_nat h) 8); [lia | reflexivity]. }
  assert (Hsend : forall f, In f (frames_of text h) ->
            Encoder.send_frame (Some s) (cells f)
            = inl (ValueError "Matrix must be 8x8")).
  { intros f Hf. unfold Encoder.send_frame. rewrite Ho. cbn [negb].
    now rewrite (Hrefused f Hf). }
  pose proof (frames_of_nth_error text h 0 Ht) as H0.
  specialize (H0 ltac:(lia)). change (Z.to_nat 0) with 0%nat in H0.
  destruct (frames_of text h) as [| first rest] eqn:Hframes;
    [discriminate H0 |].
  exists first, rest.
  split; [reflexivity |].
  split; [apply Hrefused; now left |].
  split; [apply Hsend; now left |].
  split; [exact Hsend |].
  unfold App.send_frames. cbn [for_each].
  now rewrite (Hsend first) by (now left).
Qed.

End TextFurther.

(** Worked examples with the stand-ins of [Sample]. *)

Lemma text_frames_well_formed_witness :
  shape (window_frame
           (scaled_strip Sample.nearest Sample.bbox Sample.ink "A" 8) 8 0)
  = [8; 8].
Proof.
  apply (text_frames_well_formed Sample.nearest Sample.bbox Sample.ink "A" 8).
  vm_compute. left. reflexivity.
Defined.

Lemma text_frames_scroll_witness :
  exists f g,
    nth_error (text_to_frames Sample.nearest Sample.bbox Sample.ink "A" 8) 0
    = Some f /\
    nth_error (text_to_frames Sample.nearest Sample.bbox Sample.ink "A" 8) 1
    = Some g /\
    cell (cells g) 0 0 = cell (cells f) 0 1.
Proof.
  assert (Htext : "A"%string <> EmptyString) by discriminate.
  assert (Hx : 0 <= 0) by lia.
  assert (Hw : 0 + 9
               <= width (scaled_strip Sample.nearest Sample.bbox Sample.ink "A" 8))
    by (vm_compute; discriminate).
  destruct (text_frames_scroll Sample.nearest Sample.bbox Sample.ink "A" 0
              Htext Hx Hw) as [f [g [Hf [Hg Hshift]]]].
  exists f, g. split; [exact Hf |]. split; [exact Hg |].
  apply Hshift; lia.
Defined.

Lemma send_text_frames_witness :
  exists log,
    App.send_frames (Some Sample.open_port)
      (text_to_frames Sample.nearest Sample.bbox Sample.ink "A" 8)
    = inr log /\
    length (writes log) = 8%nat.
Proof.
  destruct (send_text_frames Sample.nearest Sample.bbox Sample.ink "A"
              (Some Sample.open_port)) as [log [Hlog [Hopen _]]].
  exists log. split; [exact Hlog |].
  rewrite (Hopen Sample.open_port eq_refl eq_refl). reflexivity.
Defined.

Lemma narrow_strip_no_frames_witness :
  with_pause (windows (Image_new (5, 8) xff) 8) = [].
Proof.
  assert (Hw : width (Image_new (5, 8) xff) < 8) by reflexivity.
  exact (proj1 (proj2 (narrow_strip_no_frames
                         Sample.nearest Sample.bbox Sample.ink
                         (Image_new (5, 8) xff) 8 Hw))).
Defined.

Lemma send_frames_other_height_witness :
  App.send_frames (Some Sample.open_port)
    (text_to_frames Sample.nearest Sample.bbox Sample.ink "A" 16)
  = inl (ValueError "Matrix must be 8x8").
Proof.
  assert (Htext : "A"%string <> EmptyString) by discriminate.
  assert (Hw : 8 <= width (scaled_strip Sample.nearest Sample.bbox Sample.ink "A" 16))
    by (vm_compute; discriminate).
  assert (Hh : 0 < 16) by lia.
  assert (Hne : 16 <> 8) by lia.
  destruct (send_frames_other_height Sample.nearest Sample.bbox Sample.ink
              "A" 16 Sample.open_port Htext Hw Hh Hne eq_refl)
    as [first [rest [_ [_ [_ [_ Hloop]]]]]].
  exact Hloop.
Defined.

(** ** The click grids *)

Lemma table_binary (rows cols : Z) (g : Z -> Z -> Z) :
  (forall r c, g r c = 0 \/ g r c = 1) -> binary (table rows cols g) = true.
Proof.
  intros Hg. unfold binary, table. rewrite forallb_forall.
  intros row Hrow. apply in_map_iff in Hrow. destruct Hrow as [r [<- _]].
  rewrite forallb_forall. intros v Hv.
  apply in_map_iff in Hv. destruct Hv as [c [<- _]].
  destruct (Hg r c) as [-> | ->]; reflexivity.
Qed.

Lemma matrix_from_checkboxes_table (checkbox : string -> bool) :
  Grids.matrix_from_checkboxes checkbox
  = inr (mk_ndarray [8; 8]
           (table 8 8 (fun r c => if checkbox (cell_key r c) then 1 else 0))).
Proof.
  exact (fill_8x8 (fun r c => if checkbox (cell_key r c) then 1 else 0)).
Qed.

(** The two nested loops of [draw_grid_16]. *)
Lemma fill_16x16 (g : Z -> Z -> Z) :
  for_each (py_range 0 16)
    (fun r out =>
       for_each (py_range 0 16) (fun c out => setitem out r c (g r c)) out)
    (np_zeros 16 16)
  = inr (mk_ndarray [16; 16] (table 16 16 g)).
Proof. reflexivity. Qed.

Lemma draw_grid_16_table (checkbox : string -> bool) :
  Grids.draw_grid_16 checkbox
  = inr (mk_ndarray [16; 16]
           (table 16 16
              (fun r c => if checkbox (drawing_key r c) then 1 else 0))).
Proof.
  exact (fill_16x16 (fun r c => if checkbox (drawing_key r c) then 1 else 0)).
Qed.

(** X9: [matrix_from_checkboxes] always returns an 8x8 matrix of 0 and
    1 whose cell [(r, c)] is 1 exactly when the checkbox with key
    "cell_r_c" is ticked, and the Update Matrix button on an open port
    hands its 9-byte encoding to [ser.write] without raising. *)
Theorem matrix_from_checkboxes_cells (checkbox : string -> bool) :
  exists matrix,
    Grids.matrix_from_checkboxes checkbox = inr matrix /\
    shape matrix = [8; 8] /\
    has_dims 8 8 (cells matrix) = true /\
    binary (cells matrix) = true /\
    (forall r c, 0 <= r < 8 -> 0 <= c < 8 ->
       (cell (cells matrix) r c = 1 <-> checkbox (cell_key r c) = true)) /\
    (forall s, is_open s = true ->
       exists log,
         App.send_grid (Some s) checkbox
         = inr (ser_write (0xAA :: map row_number (cells matrix)) :: log)).
Proof.
  set (g := fun r c => if checkbox (cell_key r c) then 1 else 0).
  exists (mk_ndarray [8; 8] (table 8 8 g)).
  assert (Hd : has_dims 8 8 (table 8 8 g) = true)
    by exact (table_has_dims 8 8 g).
  assert (Hb : binary (table 8 8 g) = true).
  { apply table_binary. intros r c. unfold g.
    destruct (checkbox (cell_key r c)); auto. }
  split; [apply matrix_from_checkboxes_table |].
  split; [reflexivity |]. split; [exact Hd |].
  split; [| split].
  - exact Hb.
  - intros r c Hr Hc. cbn [cells]. rewrite table_cell by assumption.
    unfold g. destruct (checkbox (cell_key r c)); split; intros H;
      try reflexivity; discriminate H.
  - intros s Ho. unfold App.send_grid.
    rewrite matrix_from_checkboxes_table. cbn [bind].
    fold g. rewrite (send_frame_sent (Some s) (mk_ndarray [8; 8] (table 8 8 g)))
      by assumption.
    unfold sent. rewrite Ho.
    destruct (write_error s _); eexists; reflexivity.
Qed.

Lemma matrix_from_checkboxes_cells_witness :
  exists log,
    App.send_grid (Some Sample.open_port) (checks_of Sample.glyph_A)
    = inr (ser_write [0xAA; 0x18; 0x24; 0x42; 0x42; 0x7E; 0x42; 0x42; 0x00]
             :: log).
Proof.
  destruct (matrix_from_checkboxes_cells (checks_of Sample.glyph_A))
    as [matrix [Hm [_ [_ [_ [_ Hsend]]]]]].
  destruct (Hsend Sample.open_port eq_refl) as [log Hlog].
  exists log. rewrite Hlog.
  vm_compute in Hm. inversion Hm. reflexivity.
Defined.

Lemma checks_of_key (m : list (list Z)) (r c : Z) :
  0 <= r < 8 -> 0 <= c < 8 ->
  checks_of m (cell_key r c) = (cell m r c =? 1).
Proof.
  intros Hr Hc. unfold checks_of. generalize (cell m). intros f.
  each_index r; each_index c; cbv -[Z.eqb];
    match goal with |- context [?a =? 1] => destruct (a =? 1) end;
    reflexivity.
Qed.

(** X10: the 8x8 grid can show every picture: ticking the checkboxes of
    the lit cells of an 8x8 matrix of 0 and 1 makes
    [matrix_from_checkboxes] return that matrix. *)
Theorem matrix_from_checkboxes_roundtrip (m : list (list Z)) :
  has_dims 8 8 m = true -> binary m = true ->
  Grids.matrix_from_checkboxes (checks_of m) = inr (mk_ndarray [8; 8] m).
Proof.
  intros Hd Hb. rewrite matrix_from_checkboxes_table. do 2 f_equal.
  transitivity (table 8 8 (cell m));
    [| symmetry; exact (matrix_is_table 8 8 m Hd)].
  apply table_ext. intros r c Hr Hc.
  rewrite checks_of_key by assumption.
  now destruct (binary_cell m r c Hb) as [-> | ->].
Qed.

Lemma matrix_from_checkboxes_roundtrip_witness :
  Grids.matrix_from_checkboxes (checks_of Sample.glyph_A)
  = inr (mk_ndarray [8; 8] Sample.glyph_A).
Proof.
  exact (matrix_from_checkboxes_roundtrip Sample.glyph_A eq_refl eq_refl).
Defined.

(** X11: no two widgets share a key: the 64 keys of the 8x8 grid, the
    256 keys of the 16x16 grid and the key of the canvas are pairwise
    different. *)
Theorem widget_keys_distinct :
  NoDup widget_keys /\ length widget_keys = 321%nat.
Proof.
  split; [| reflexivity].
  assert (H : nodup string_dec widget_keys = widget_keys)
    by (vm_compute; reflexivity).
  rewrite <- H. apply NoDup_nodup.
Qed.

(** ** The downsampler on other inputs *)

Lemma downsample_table (mat16 : ndarray Z) :
  Downsampler.downsample_16_to_8 mat16
  = inr (mk_ndarray [8; 8]
           (table 8 8
              (fun r c =>
                 if 0 <? np_sum (getslice mat16 (r * 2) ((r + 1) * 2)
                                                (c * 2) ((c + 1) * 2))
                 then 1 else 0))).
Proof.
  exact (fill_8x8
           (fun r c =>
              if 0 <? np_sum (getslice mat16 (r * 2) ((r + 1) * 2)
                                             (c * 2) ((c + 1) * 2))
              then 1 else 0)).
Qed.

Lemma slice_beyond {A} (l : list A) (lo hi : Z) :
  Z.of_nat (length l) <= lo -> slice l lo hi = [].
Proof.
  intros Hlo. unfold slice. cbv zeta.
  replace (slice_bound lo (Z.of_nat (length l))) with (Z.of_nat (length l)).
  - rewrite Nat2Z.id, skipn_all. apply firstn_nil.
  - unfold slice_bound. destruct (Z.ltb_spec lo 0); lia.
Qed.

Lemma slice_In {A} (l : list A) (lo hi : Z) (x : A) :
  In x (slice l lo hi) -> In x l.
Proof.
  unfold slice. cbv zeta. intros Hin.
  set (k := Z.to_nat (slice_bound lo (Z.of_nat (length l)))) in *.
  set (n := Z.to_nat _) in Hin.
  rewrite <- (firstn_skipn k l). apply in_or_app. right.
  rewrite <- (firstn_skipn n (skipn k l)). apply in_or_app. now left.
Qed.

Lemma wrap64_small (z : Z) : - 2 ^ 63 <= z < 2 ^ 63 -> wrap64 z = z.
Proof.
  intros Hz. unfold wrap64.
  change (2 ^ 64) with 18446744073709551616.
  change (2 ^ 63) with 9223372036854775808 in *.
  rewrite Z.mod_small; lia.
Qed.

Lemma block_sum_small (block : ndarray Z) (a b c d : Z) :
  cells block = [[a; b]; [c; d]] ->
  0 <= a < 2 ^ 61 -> 0 <= b < 2 ^ 61 -> 0 <= c < 2 ^ 61 -> 0 <= d < 2 ^ 61 ->
  np_sum block = a + b + c + d.
Proof.
  intros Hcells Ha Hb Hc Hd. unfold np_sum. rewrite Hcells.
  cbn [concat app fold_left].
  change (2 ^ 61) with 2305843009213693952 in *.
  assert (Hsmall : forall z, 0 <= z < 4 * 2305843009213693952 -> wrap64 z = z).
  { intros z Hz. apply wrap64_small.
    change (2 ^ 63) with 9223372036854775808. lia. }
  rewrite (Hsmall (0 + a)) by lia.
  rewrite (Hsmall (0 + a + b)) by lia.
  rewrite (Hsmall (0 + a + b + c)) by lia.
  rewrite (Hsmall (0 + a + b + c + d)) by lia.
  lia.
Qed.

(** X12: [downsample_16_to_8] never raises: whatever array it is given
    it returns an 8x8 array of 0 and 1, and an output cell whose 2x2
    block lies below the last row or right of the last column of the
    input is 0. *)
Theorem downsample_any_input (mat16 : ndarray Z) :
  exists out,
    Downsampler.downsample_16_to_8 mat16 = inr out /\
    shape out = [8; 8] /\
    has_dims 8 8 (cells out) = true /\
    binary (cells out) = true /\
    (forall r c, 0 <= r < 8 -> 0 <= c < 8 ->
       Z.of_nat (length (cells mat16)) <= 2 * r ->
       cell (cells out) r c = 0) /\
    (forall r c, 0 <= r < 8 -> 0 <= c < 8 ->
       (forall row, In row (cells mat16) -> Z.of_nat (length row) <= 2 * c) ->
       cell (cells out) r c = 0).
Proof.
  eexists. split; [apply downsample_table |].
  split; [reflexivity |].
  split; [exact (table_has_dims 8 8 _) |].
  split; [| split].
  - apply table_binary. intros r c. destruct (0 <? _); auto.
  - intros r c Hr Hc Hrows. cbn [cells]. rewrite table_cell by assumption.
    unfold np_sum, getslice. cbn [cells].
    rewrite slice_beyond by lia. reflexivity.
  - intros r c Hr Hc Hcols. cbn [cells]. rewrite table_cell by assumption.
    unfold np_sum, getslice. cbn [cells].
    assert (Hempty : concat (map (fun row : list Z =>
                                    slice row (c * 2) ((c + 1) * 2))
                                 (slice (cells mat16) (r * 2) ((r + 1) * 2)))
                     = []).
    { apply concat_nil_Forall, Forall_forall. intros x Hx.
      apply in_map_iff in Hx. destruct Hx as [row [<- Hrow]].
      apply slice_beyond.
      assert (Hin : In row (cells mat16)) by (eapply slice_In; exact Hrow).
      specialize (Hcols row Hin). lia. }
    now rewrite Hempty.
Qed.

Lemma downsample_any_input_witness :
  Downsampler.downsample_16_to_8 (mk_ndarray [8; 8] Sample.glyph_A)
  = inr (mk_ndarray [8; 8]
           [ [0; 1; 1; 0; 0; 0; 0; 0];
             [1; 0; 0; 1; 0; 0; 0; 0];
             [1; 1; 1; 1; 0; 0; 0; 0];
             [1; 0; 0; 1; 0; 0; 0; 0];
             [0; 0; 0; 0; 0; 0; 0; 0];
             [0; 0; 0; 0; 0; 0; 0; 0];
             [0; 0; 0; 0; 0; 0; 0; 0];
             [0; 0; 0; 0; 0; 0; 0; 0] ]).
Proof.
  destruct (downsample_any_input (mk_ndarray [8; 8] Sample.glyph_A))
    as [out [Hout [_ [_ [_ [Hrows _]]]]]].
  assert (H : cell (cells out) 4 0 = 0) by (apply Hrows; cbn; lia).
  rewrite Hout. vm_compute in Hout. now inversion Hout.
Defined.

(** X13: on a 16x16 array of non-negative integers below 2^61 (no sum
    wraps around) an output cell is 1 exactly when at least one of the
    four cells of its block is nonzero. *)
Theorem downsample_nonnegative (mat16 : ndarray Z) :
  has_dims 16 16 (cells mat16) = true ->
  (forall r c, 0 <= cell (cells mat16) r c < 2 ^ 61) ->
  exists out,
    Downsampler.downsample_16_to_8 mat16 = inr out /\
    forall r c, 0 <= r < 8 -> 0 <= c < 8 ->
      (cell (cells out) r c = 1 <->
         cell (cells mat16) (2 * r) (2 * c) <> 0 \/
         cell (cells mat16) (2 * r) (2 * c + 1) <> 0 \/
         cell (cells mat16) (2 * r + 1) (2 * c) <> 0 \/
         cell (cells mat16) (2 * r + 1) (2 * c + 1) <> 0).
Proof.
  intros Hd Hrange. eexists. split; [apply downsample_table |].
  intros r c Hr Hc. cbn [cells]. rewrite table_cell by assumption.
  rewrite (block_sum_small _ _ _ _ _ (block_cells mat16 r c Hd Hr Hc))
    by apply Hrange.
  pose proof (Hrange (2 * r) (2 * c)).
  pose proof (Hrange (2 * r) (2 * c + 1)).
  pose proof (Hrange (2 * r + 1) (2 * c)).
  pose proof (Hrange (2 * r + 1) (2 * c + 1)).
  destruct (Z.ltb_spec 0
              (cell (cells mat16) (2 * r) (2 * c)
               + cell (cells mat16) (2 * r) (2 * c + 1)
               + cell (cells mat16) (2 * r + 1) (2 * c)
               + cell (cells mat16) (2 * r + 1) (2 * c + 1))); lia.
Qed.

Lemma cells_within (m : list (list Z)) (lo hi : Z) :
  forallb (forallb (fun v => (lo <=? v) && (v <? hi))) m = true ->
  lo <= 0 < hi ->
  forall r c, lo <= cell m r c < hi.
Proof.
  intros Hall H0 r c. unfold cell.
  destruct (nth_in_or_default (Z.to_nat r) m []) as [Hin | ->].
  - rewrite forallb_forall in Hall. specialize (Hall _ Hin).
    rewrite forallb_forall in Hall.
    destruct (nth_in_or_default (Z.to_nat c) (nth (Z.to_nat r) m []) 0)
      as [Hin' | ->]; [| exact H0].
    specialize (Hall _ Hin'). lia.
  - now destruct (Z.to_nat c).
Qed.

Lemma downsample_nonnegative_witness :
  exists out,
    Downsampler.downsample_16_to_8 Sample.gray16 = inr out /\
    cell (cells out) 0 7 = 1 /\ cell (cells out) 7 0 <> 1.
Proof.
  destruct (downsample_nonnegative Sample.gray16 eq_refl
              (cells_within (cells Sample.gray16) 0 (2 ^ 61) eq_refl
                 (conj (Z.le_refl 0) eq_refl)))
    as [out [Hout Hcell]].
  exists out. split; [exact Hout |]. split.
  - apply (Hcell 0 7); [lia | lia |]. right. left. discriminate.
  - intros H1. apply (Hcell 7 0) in H1; [| lia | lia].
    destruct H1 as [H | [H | [H | H]]]; now apply H.
Defined.

(** X14: the 16x16 grid and the downsampler together: [draw_grid_16]
    always returns a 16x16 matrix of 0 and 1, and downsampling it gives
    an 8x8 matrix whose cell [(r, c)] is 1 exactly when at least one of
    the four checkboxes of its 2x2 block is ticked. *)
Theorem draw_grid_16_downsampled (checkbox : string -> bool) :
  exists mat out,
    Grids.draw_grid_16 checkbox = inr mat /\
    shape mat = [16; 16] /\
    has_dims 16 16 (cells mat) = true /\
    binary (cells mat) = true /\
    Downsampler.downsample_16_to_8 mat = inr out /\
    has_dims 8 8 (cells out) = true /\
    forall r c, 0 <= r < 8 -> 0 <= c < 8 ->
      (cell (cells out) r c = 1 <->
         checkbox (drawing_key (2 * r) (2 * c)) = true \/
         checkbox (drawing_key (2 * r) (2 * c + 1)) = true \/
         checkbox (drawing_key (2 * r + 1) (2 * c)) = true \/
         checkbox (drawing_key (2 * r + 1) (2 * c + 1)) = true).
Proof.
  set (g := fun r c => if checkbox (drawing_key r c) then 1 else 0).
  set (mat := mk_ndarray [16; 16] (table 16 16 g)).
  assert (Hd : has_dims 16 16 (cells mat) = true)
    by exact (table_has_dims 16 16 g).
  assert (Hb : binary (cells mat) = true).
  { apply table_binary. intros r c. unfold g.
    destruct (checkbox (drawing_key r c)); auto. }
  exists mat. eexists.
  split; [apply draw_grid_16_table |].
  split; [reflexivity |]. split; [exact Hd |]. split; [exact Hb |].
  split; [apply downsample_table |].
  split; [exact (table_has_dims 8 8 _) |].
  intros r c Hr Hc. cbn [cells]. rewrite table_cell by assumption.
  fold mat.
  assert (Hg : forall r' c', 0 <= r' < 16 -> 0 <= c' < 16 ->
            cell (cells mat) r' c' = g r' c')
    by (intros r' c' Hr' Hc'; now apply table_cell).
  pose proof (binary_cell (cells mat) (2 * r) (2 * c) Hb) as H00.
  pose proof (binary_cell (cells mat) (2 * r) (2 * c + 1) Hb) as H01.
  pose proof (binary_cell (cells mat) (2 * r + 1) (2 * c) Hb) as H10.
  pose proof (binary_cell (cells mat) (2 * r + 1) (2 * c + 1) Hb) as H11.
  rewrite (block_sum_binary _ _ _ _ _ (block_cells mat r c Hd Hr Hc))
    by assumption.
  rewrite !Hg in * by lia. unfold g in *.
  destruct (checkbox (drawing_key (2 * r) (2 * c))),
           (checkbox (drawing_key (2 * r) (2 * c + 1))),
           (checkbox (drawing_key (2 * r + 1) (2 * c))),
           (checkbox (drawing_key (2 * r + 1) (2 * c + 1)));
    cbn; split; intros H; try reflexivity; try discriminate H; auto;
    destruct H as [H | [H | [H | H]]]; discriminate H.
Qed.

Lemma draw_grid_16_downsampled_witness :
  exists mat out,
    Grids.draw_grid_16 (String.eqb "drawing_3_12") = inr mat /\
    Downsampler.downsample_16_to_8 mat = inr out /\
    cell (cells out) 1 6 = 1.
Proof.
  destruct (draw_grid_16_downsampled (String.eqb "drawing_3_12"))
    as [mat [out [Hmat [_ [_ [_ [Hout [_ Hcell]]]]]]]].
  exists mat, out. split; [exact Hmat |]. split; [exact Hout |].
  apply (Hcell 1 6); [lia | lia |]. right. right. left. reflexivity.
Defined.

(** ** The drawing on its way to the port *)

(** X15: whatever the image, the matrix [image_to_8x8] returns is
    accepted by [send_frame]: the call never raises, and on an open
    port it hands [ser.write] nine bytes in which bit [7 - c] of row
    byte [r] is set exactly when the resized pixel in column [c] of
    line [r] has an intensity of at most 178. *)
Theorem send_drawing (P : Type) (luma : P -> byte)
    (bilinear : image byte -> Z * Z -> Z -> Z -> byte) (img : image P)
    (ser : option Serial) :
  exists log,
    Encoder.send_frame ser (cells (image_to_8x8 P luma bilinear img)) = inr log /\
    forall s, ser = Some s -> is_open s = true ->
      exists data rest,
        log = ser_write data :: rest /\
        length data = 9%nat /\
        nth_error data 0 = Some 0xAA /\
        forall r c, 0 <= r < 8 -> 0 <= c < 8 ->
          Z.testbit (nth (Z.to_nat (r + 1)) data 0) (7 - c)
          = (intensity (bilinear (convert_L P luma img) (8, 8) c r) <=? 178).
Proof.
  rewrite image_to_8x8_table. cbn [cells].
  set (g := fun r c : Z =>
         if intensity (bilinear (convert_L P luma img) (8, 8) c r) <=? 178
         then 1 else 0).
  assert (Hd : has_dims 8 8 (table 8 8 g) = true)
    by exact (table_has_dims 8 8 g).
  unfold Encoder.send_frame.
  destruct ser as [s |];
    [destruct (is_open s) eqn:Ho | ]; cbn [negb].
  - assert (Hi : int_cells (table 8 8 g) = true).
    { apply binary_int_cells, table_binary. intros r c. unfold g.
      destruct (_ <=? 178); auto. }
    rewrite encode_8x8 by assumption. cbn [bind].
    assert (Hbits : forall r c, 0 <= r < 8 -> 0 <= c < 8 ->
              Z.testbit
                (nth (Z.to_nat (r + 1))
                     (0xAA :: map (row_value (table 8 8 g)) (py_range 0 8)) 0)
                (7 - c)
              = (intensity (bilinear (convert_L P luma img) (8, 8) c r)
                 <=? 178)).
    { intros r c Hr Hc.
      rewrite frame_row_byte, row_value_testbit, table_cell by assumption.
      unfold g, truthy. now destruct (_ <=? 178). }
    destruct (write_error s _); eexists; (split; [reflexivity |]);
      intros s' _ _; do 2 eexists;
      (split; [reflexivity |]); (split; [reflexivity |]);
      (split; [reflexivity | exact Hbits]).
  - eexists. split; [reflexivity |]. intros s' Hs Ho'.
    inversion Hs; subst s'. congruence.
  - eexists. split; [reflexivity |]. intros s' Hs. discriminate Hs.
Qed.

Lemma send_drawing_witness :
  Encoder.send_frame (Some Sample.open_port)
    (cells (image_to_8x8 byte (fun b => b) Sample.nearest
              (Image_new (256, 256) x00)))
  = inr [ser_write [0xAA; 0xFF; 0xFF; 0xFF; 0xFF; 0xFF; 0xFF; 0xFF; 0xFF]].
Proof.
  destruct (send_drawing byte (fun b => b) Sample.nearest
              (Image_new (256, 256) x00) (Some Sample.open_port))
    as [log [Hlog _]].
  rewrite Hlog. vm_compute in Hlog. now inversion Hlog.
Defined.

(** ** The connection *)

Lemma py_index_found (l : list string) (x : string) :
  App.py_in x l = true ->
  exists i, App.py_index l x = inr i /\ nth_error l i = Some x.
Proof.
  unfold App.py_in. induction l as [| y l IH]; [discriminate |].
  cbn [existsb App.py_index]. intros Hin.
  destruct (String.eqb_spec y x) as [-> | Hne].
  - exists O. split; reflexivity.
  - destruct (String.eqb_spec x y) as [-> | _]; [contradiction |].
    destruct (IH Hin) as [i [Hi Hnth]].
    exists (S i). rewrite Hi. split; [reflexivity | exact Hnth].
Qed.

(** X16: the port the sidebar resolves to.  The index handed to the
    select box is always one of its options; while the user touches
    nothing the port is the remembered one, whether it was detected or
    not; picking a detected port gives that port; picking "Manual..."
    gives the text field. *)
Theorem select_port_resolves (ports : list string) (st : App.session_state) :
  App.select_port ports st None None = inr (Some (App.ss_port st)) /\
  (forall i p typed,
     nth_error ports i = Some p -> p <> "Manual..."%string ->
     App.select_port ports st (Some i) typed = inr (Some p)) /\
  (forall typed,
     App.select_port ports st (Some (length ports)) typed
     = inr (Some (App.text_input (App.ss_port st) typed))).
Proof.
  assert (Hindex : ports <> [] ->
            exists index initial,
              (if App.py_in (App.ss_port st) ports
               then App.py_index ports (App.ss_port st)
               else ret (length ports)) = inr index /\
              nth_error (ports ++ ["Manual..."%string]) index = Some initial /\
              (initial = App.ss_port st \/ initial = "Manual..."%string)).
  { intros _. destruct (App.py_in (App.ss_port st) ports) eqn:Hin.
    - destruct (py_index_found _ _ Hin) as [i [Hi Hnth]].
      exists i, (App.ss_port st). split; [exact Hi |]. split; [| now left].
      rewrite nth_error_app1; [exact Hnth |].
      apply nth_error_Some. congruence.
    - exists (length ports), "Manual..."%string.
      split; [reflexivity |]. split; [| now right].
      rewrite nth_error_app2 by lia. now rewrite Nat.sub_diag. }
  unfold App.select_port.
  destruct ports as [| p0 ports'].
  - split; [reflexivity |]. split; [| reflexivity].
    intros [| i] p typed H; discriminate H.
  - destruct Hindex as [index [initial [Hidx [Hinit Hor]]]]; [discriminate |].
    rewrite Hidx. cbn [bind]. unfold ret at 1 3 5. cbn [bind].
    unfold App.selectbox. rewrite Hinit.
    split; [| split].
    + destruct Hor as [-> | ->]; [| reflexivity].
      now destruct (String.eqb (App.ss_port st) "Manual...").
    + intros i p typed Hp Hne.
      rewrite nth_error_app1 by (apply nth_error_Some; congruence).
      rewrite Hp. destruct (String.eqb_spec p "Manual..."); [contradiction |].
      reflexivity.
    + intros typed. rewrite nth_error_app2 by lia. rewrite Nat.sub_diag.
      reflexivity.
Qed.

Lemma select_port_resolves_witness :
  App.select_port ["COM3"; "COM7"]%string App.initial_session (Some 1%nat) None
  = inr (Some "COM7"%string).
Proof.
  destruct (select_port_resolves ["COM3"; "COM7"]%string App.initial_session)
    as [_ [Hpick _]].
  apply Hpick; [reflexivity | discriminate].
Defined.

(** X17: in every session state [main] can reach, the connected flag is
    set exactly when a handle is stored, so the tabs are shown exactly
    when the flag is set. *)
Theorem session_invariant (st : App.session_state) :
  reachable st ->
  App.tabs_shown st = App.ss_connected st /\
  (App.ss_connected st = true <-> exists s, App.ss_ser st = Some s).
Proof.
  intros Hr. induction Hr as [| opener st port baud _ _].
  - split; [reflexivity |]. split; [discriminate | intros [s Hs]; discriminate Hs].
  - unfold App.connect. destruct (opener port baud) as [e | s]; cbn.
    + split; [reflexivity |].
      split; [discriminate | intros [s Hs]; discriminate Hs].
    + split; [reflexivity |]. split; [now exists s | reflexivity].
Qed.

Lemma session_invariant_witness :
  App.tabs_shown
    (fst (App.connect Sample.only_COM3 App.initial_session "COM3" 9600))
  = true.
Proof.
  destruct (session_invariant
              (fst (App.connect Sample.only_COM3 App.initial_session "COM3" 9600))
              (reachable_connect Sample.only_COM3 App.initial_session
                 "COM3" 9600 reachable_initial))
    as [Hshown _].
  rewrite Hshown. reflexivity.
Defined.



Lemma dict_get_set_same (d : App.dict) (key : string) (v : Serial) :
  App.dict_get (App.dict_set d key v) key = Some v.
Proof.
  induction d as [| [k v'] d IH]; cbn.
  - now rewrite String.eqb_refl.
  - destruct (String.eqb k key) eqn:Hk; cbn; now rewrite Hk.
Qed.

Lemma dict_get_set_other (d : App.dict) (key key' : string) (v : Serial) :
  key' <> key ->
  App.dict_get (App.dict_set d key v) key' = App.dict_get d key'.
Proof.
  intros Hne. induction d as [| [k v'] d IH]; cbn.
  - destruct (String.eqb_spec key key'); [congruence | reflexivity].
  - destruct (String.eqb_spec k key) as [-> | Hk]; cbn.
    + destruct (String.eqb_spec key key'); [congruence | reflexivity].
    + now rewrite IH.
Qed.

(** X19: [get_serial] opens a port at most once: after a call that
    returned a handle, a further call for the same port and baud rate
    returns the same handle without opening anything and leaves the
    session as it is.  A call that returns no handle has stored
    nothing, and no call changes the entry of another key. *)
Theorem get_serial_cached
    (serial_Serial serial_Serial' : string -> Z -> string + Serial)
    (session session' : App.dict) (port : string) (baud : Z)
    (r : option Serial) (log : list App.app_event) :
  App.get_serial serial_Serial session port baud = (session', r, log) ->
  (forall s, r = Some s ->
     App.get_serial serial_Serial' session' port baud = (session', Some s, [])) /\
  (r = None -> session' = session) /\
  (forall key, key <> ("ser_" ++ port ++ "_" ++ py_str baud)%string ->
     App.dict_get session' key = App.dict_get session key).
Proof.
  unfold App.get_serial.
  destruct (App.dict_get session _) as [s0 |] eqn:Hget.
  - intros H. inversion H; subst. split; [| split].
    + intros s Hs. inversion Hs; subst. now rewrite Hget.
    + discriminate.
    + reflexivity.
  - destruct (serial_Serial port baud) as [e | s1].
    + intros H. inversion H; subst. split; [| split].
      * discriminate.
      * reflexivity.
      * reflexivity.
    + cbv zeta. rewrite dict_get_set_same. intros H. inversion H; subst.
      split; [| split].
      * intros s Hs. inversion Hs; subst. now rewrite dict_get_set_same.
      * discriminate.
      * intros key Hne. now apply dict_get_set_other.
Qed.

Lemma get_serial_cached_witness :
  App.get_serial (fun _ _ => inl "busy"%string)
    [("ser_COM3_9600"%string, Sample.open_port)] "COM3" 9600
  = ([("ser_COM3_9600"%string, Sample.open_port)], Some Sample.open_port, []).
Proof.
  destruct (get_serial_cached Sample.only_COM3 (fun _ _ => inl "busy"%string)
              [] [("ser_COM3_9600"%string, Sample.open_port)] "COM3" 9600
              (Some Sample.open_port)
              [App.serial_open "COM3" 9600; App.sleep 2] eq_refl)
    as [Hcached _].
  exact (Hcached Sample.open_port eq_refl).
Defined.
